(** * yara.go: a Go binding of libyara, and what its operations guarantee

    The binding (package [yara], one file) is a thin layer over the C
    library: every exported function marshals its arguments, makes one or
    two calls through cgo and translates the returned status.  This file
    embeds each function of [yara.go] in a small monad for Go code that
    calls into C, states the behaviour over an arbitrary implementation of
    the C side, and then runs it against a reference engine. *)

From Stdlib Require Import ZArith String Ascii List DecimalString.
From Stdlib.Strings Require Import Byte.
From Stdlib Require DecimalPos DecimalZ.
From stdpp Require Import gmap strings list.

Local Open Scope Z_scope.

(** ** Outcomes of Go code that calls into C

    A Go function either returns, or panics (the run-time checks of the
    language: index out of range, assignment to an entry of a nil map), or
    the C side was used against its contract and nothing can be said. *)

Inductive outcome (St A : Type) : Type :=
| Done (a : A) (s : St)
| Panicked (msg : string) (s : St)
| Undefined.
Arguments Done {St A} a s.
Arguments Panicked {St A} msg s.
Arguments Undefined {St A}.

Definition Go (St A : Type) : Type := St -> outcome St A.

Definition ret {St A} (a : A) : Go St A := fun s => Done a s.

Definition bind {St A B} (m : Go St A) (k : A -> Go St B) : Go St B :=
  fun s =>
    match m s with
    | Done a s' => k a s'
    | Panicked msg s' => Panicked msg s'
    | Undefined => Undefined
    end.

Definition panic {St A} (msg : string) : Go St A := fun s => Panicked msg s.

Declare Scope go_scope.
Delimit Scope go_scope with go.
Notation "x <- m ;; k" := (bind m (fun x => k))
  (at level 100, m at next level, right associativity) : go_scope.
Notation "m ;;; k" := (bind m (fun _ => k))
  (at level 100, right associativity) : go_scope.

(** ** yara.h *)

Module yara_h.

(** Modelled from the spec: the header [yara.h] is not among the sources.
    The spec gives "success sentinel = 0" for every status code and
    "callback_status_int ∈ {Continue=0, Abort, Fail}" for the callback,
    an enumeration from 0 in the order listed. *)
Definition ERROR_SUCCESS : Z := 0.
Definition CALLBACK_CONTINUE : Z := 0.
Definition CALLBACK_ABORT : Z := 1.
Definition CALLBACK_ERROR : Z := 2.

End yara_h.
Import yara_h.

(** ** Values of the Go side *)

(** [type CallbackStatus int] and its three constants. *)
Definition CallbackStatus : Type := Z.
Definition Continue : CallbackStatus := CALLBACK_CONTINUE.
Definition Abort : CallbackStatus := CALLBACK_ABORT.
Definition Fail : CallbackStatus := CALLBACK_ERROR.

(** [type Error int], with its method [Error() string]:
    [fmt.Sprintf("libyara: %d", e)]. *)
Definition Error : Type := Z.

Definition Error_Error (e : Error) : string :=
  "libyara: " +:+ NilZero.string_of_int (Z.to_int e).

(** A value of the interface type [error]: nil, an [Error], or the value
    [fmt.Errorf] builds from a message. *)
Inductive error : Type :=
| nil_error
| of_Error (e : Error)
| fmt_Errorf (msg : string).

(** A pointer into C memory; [NULL] is Go's nil for such a pointer. *)
Definition pointer : Type := N.
Definition NULL : pointer := 0%N.

(** A slice [[]T] is nil or has elements; a [map[string]string] is nil or
    a table. *)
Definition slice (T : Type) : Type := option (list T).
Definition map_string_string : Type := option (gmap string string).

(** [make(map[string]string)]. *)
Definition make_map : map_string_string := Some ∅.

(** [type Rule struct]. *)
Record Rule : Type := {
  Identifier : string;
  Tags : slice string;
  Metadata : map_string_string
}.

(** [func NewRule() *Rule]: the fields a composite literal leaves out hold
    the zero value of their type. *)
Definition NewRule : Rule :=
  {| Identifier := ""; Tags := None; Metadata := make_map |}.

(** [type Compiler struct] and [type Rules struct]. *)
Record Compiler : Type := { Compiler_handle : pointer }.
Record Rules : Type := { Rules_handle : pointer }.

(** [C.CString]: the copy handed to C ends at the first NUL byte. *)
Fixpoint CString (s : string) : string :=
  match s with
  | EmptyString => EmptyString
  | String c rest =>
      if Ascii.eqb c zero then EmptyString else String c (CString rest)
  end.

(** What the rule that matched shows to the callback of a scan: its
    identifier, its tags and its metadata pairs. *)
Record YR_RULE : Type := {
  identifier : string;
  tags : list string;
  metas : list (string * string)
}.

(** ** The binding, over any implementation of the C side *)

Section Binding.

(** [W] is the state behind the C calls (the engine's heap, the files);
    [G] is whatever the caller's callback closes over. *)
Context {W G : Type}.

(** The state of a run: the two above, and the record of every match the
    caller's callback has been invoked with, oldest first. *)
Record state : Type := {
  native : W;
  closure : G;
  invoked : list Rule
}.

(** A C function: a step of [W], or no defined result at all. *)
Definition Native (A : Type) : Type := W -> option (A * W).

(** A call through cgo leaves the Go side as it was. *)
Definition cgo {A} (f : Native A) : Go state A :=
  fun s =>
    match f (native s) with
    | Some (a, w) =>
        Done a {| native := w; closure := closure s; invoked := invoked s |}
    | None => Undefined
    end.

(** [type Callback func] from [*Rule] to [CallbackStatus]: a closure, so a
    step of [G]. *)
Definition Callback : Type := Rule -> G -> CallbackStatus * G.

(** [C.YR_CALLBACK_FUNC], after the spec's
    "match_callback(match_event_ptr, context_ptr) -> callback_status_int":
    the context pointer of a scan is the caller's [Callback]. *)
Definition YR_CALLBACK_FUNC : Type := YR_RULE -> Callback -> Go state Z.

(** What [import "C"] makes callable: [stdio.h] and [yara.h].  An out
    parameter ([*handle]) is returned beside the status; it is [NULL]
    when the call stored nothing.  [data] of a scan is the memory from
    the address passed on. *)
Record C_package : Type := {
  fopen : string -> string -> Native pointer;
  fclose : pointer -> Native Z;
  yr_finalize : Native Z;
  yr_compiler_create : Native (Z * pointer);
  yr_compiler_destroy : pointer -> Native unit;
  yr_compiler_add_file :
    pointer -> pointer -> option string -> string -> Native Z;
  yr_compiler_add_string : pointer -> string -> option string -> Native Z;
  yr_compiler_get_rules : pointer -> Native (Z * pointer);
  yr_rules_load : string -> Native (Z * pointer);
  yr_rules_save : pointer -> string -> Native Z;
  yr_rules_destroy : pointer -> Native unit;
  yr_rules_scan_mem :
    pointer -> list byte -> Z -> Z -> YR_CALLBACK_FUNC -> Callback -> Z ->
    Go state Z;
  yr_rules_scan_file :
    pointer -> string -> Z -> YR_CALLBACK_FUNC -> Callback -> Z ->
    Go state Z
}.

Variable C : C_package.

(** The verb [%q] of [fmt] (Go's [strconv.Quote]); the standard library
    of Go is not among the sources, the quoting is left open. *)
Variable fmt_q : string -> string.

Local Open Scope go_scope.

(** *** Run-time checks of Go *)

(** [m[k] = v]. *)
Definition mapassign (m : map_string_string) (k v : string)
  : Go state map_string_string :=
  match m with
  | Some t => ret (Some (<[k := v]> t))
  | None => panic "assignment to entry in nil map"
  end.

(** [append(s, x)]. *)
Definition append {T} (s : slice T) (x : T) : slice T :=
  Some (default [] s ++ [x]).

(** [&s[i]]: the memory from element [i] on, after the bounds check. *)
Definition addr_of_index {T} (s : list T) (i : nat) : Go state (list T) :=
  if decide (i < length s)%nat then ret (drop i s)
  else
    panic ("runtime error: index out of range ["
           +:+ NilZero.string_of_uint (Nat.to_uint i) +:+ "] with length "
           +:+ NilZero.string_of_uint (Nat.to_uint (length s))).

(** *** The callback handed to the engine *)

Fixpoint assign_all (m : map_string_string) (kvs : list (string * string))
  : Go state map_string_string :=
  match kvs with
  | [] => ret m
  | (k, v) :: rest => m' <- mapassign m k v ;; assign_all m' rest
  end.

(** Modelled from the spec: the Go function behind [C.callback] is
    declared in [cgo.h] and defined outside [yara.go].  The spec:
    "match_event_ptr exposes rule identifier, tag list, and metadata
    key/value pairs, which the façade copies into a Rule record before
    invoking the caller's handler", the record being
    "constructed fresh by the façade for each match event". *)
Definition rule_of_match (ev : YR_RULE) : Go state Rule :=
  let rule := NewRule in
  md <- assign_all (Metadata rule) (metas ev) ;;
  ret {| Identifier := identifier ev;
         Tags := fold_left append (tags ev) (Tags rule);
         Metadata := md |}.

(** Modelled from the spec: [var callback = (C.YR_CALLBACK_FUNC)(...)],
    the same missing function seen from C.  It builds the record, runs
    the caller's handler on it and hands the handler's status back. *)
Definition callback : YR_CALLBACK_FUNC :=
  fun ev fn =>
    rule <- rule_of_match ev ;;
    fun s =>
      let '(status, g) := fn rule (closure s) in
      Done status
        {| native := native s; closure := g;
           invoked := invoked s ++ [rule] |}.

(** *** yara.go *)

(** [func Finalize() error]. *)
Definition Finalize : Go state error :=
  code <- cgo (yr_finalize C) ;;
  if negb (code =? ERROR_SUCCESS) then ret (of_Error code)
  else ret nil_error.

(** [func NewCompiler()], returning [*Compiler] and [error]. *)
Definition NewCompiler : Go state (option Compiler * error) :=
  out <- cgo (yr_compiler_create C) ;;
  let '(code, handle) := out in
  if negb (code =? ERROR_SUCCESS) then ret (None, of_Error code)
  else ret (Some {| Compiler_handle := handle |}, nil_error).

(** [func (c *Compiler) Destroy()]. *)
Definition Compiler_Destroy (c : Compiler) : Go state unit :=
  cgo (yr_compiler_destroy C (Compiler_handle c)).

(** [func (c *Compiler) AddFile(ns, path string) error].  The three
    [C.free] of the copies are deferred and touch nothing modelled here;
    the deferred [C.fclose(fd)] runs when the function returns, on both
    paths after the file was opened.  [cns] is built and freed and not
    used in between: the third argument of [yr_compiler_add_file] is
    nil. *)
Definition Compiler_AddFile (c : Compiler) (ns path : string)
  : Go state error :=
  let cpath := CString path in
  let cmode := CString "r" in
  let cns := CString ns in
  fd <- cgo (fopen C cpath cmode) ;;
  if (fd =? NULL)%N then
    ret (fmt_Errorf ("libyara: failed to open " +:+ fmt_q path))
  else
    errors <- cgo (yr_compiler_add_file C (Compiler_handle c) fd None cpath) ;;
    if errors >? 0 then
      cgo (fclose C fd) ;;;
      ret (fmt_Errorf ("libyara: failed to compile " +:+ fmt_q path))
    else
      cgo (fclose C fd) ;;;
      ret nil_error.

(** [func (c *Compiler) AddString(ns, rule string) error]. *)
Definition Compiler_AddString (c : Compiler) (ns rule : string)
  : Go state error :=
  let cns := CString ns in
  let crule := CString rule in
  errors <- cgo (yr_compiler_add_string C (Compiler_handle c) crule (Some cns)) ;;
  if errors >? 0 then ret (fmt_Errorf "libyara: failed to compile rule")
  else ret nil_error.

(** [func (c *Compiler) Rules()], returning [*Rules] and [error]. *)
Definition Compiler_Rules (c : Compiler) : Go state (option Rules * error) :=
  out <- cgo (yr_compiler_get_rules C (Compiler_handle c)) ;;
  let '(code, handle) := out in
  if negb (code =? ERROR_SUCCESS) then ret (None, of_Error code)
  else ret (Some {| Rules_handle := handle |}, nil_error).

(** [func LoadFromFile(path string)], returning [*Rules] and [error]. *)
Definition LoadFromFile (path : string) : Go state (option Rules * error) :=
  let cpath := CString path in
  out <- cgo (yr_rules_load C cpath) ;;
  let '(code, handle) := out in
  if negb (code =? ERROR_SUCCESS) then ret (None, of_Error code)
  else ret (Some {| Rules_handle := handle |}, nil_error).

(** [func (r *Rules) Destroy()]. *)
Definition Rules_Destroy (r : Rules) : Go state unit :=
  cgo (yr_rules_destroy C (Rules_handle r)).

(** [func (r *Rules) Save(path string) error]. *)
Definition Rules_Save (r : Rules) (path : string) : Go state error :=
  let cpath := CString path in
  code <- cgo (yr_rules_save C (Rules_handle r) cpath) ;;
  if negb (code =? ERROR_SUCCESS) then ret (of_Error code)
  else ret nil_error.

(** [func (r *Rules) ScanMemory(buffer []byte, fn Callback) error]. *)
Definition Rules_ScanMemory (r : Rules) (buffer : list byte) (fn : Callback)
  : Go state error :=
  data <- addr_of_index buffer 0 ;;
  let size := Z.of_nat (length buffer) in
  code <- yr_rules_scan_mem C (Rules_handle r) data size 0 callback fn 0 ;;
  if negb (code =? ERROR_SUCCESS) then ret (of_Error code)
  else ret nil_error.

(** [func (r *Rules) ScanFile(path string, fn Callback) error]. *)
Definition Rules_ScanFile (r : Rules) (path : string) (fn : Callback)
  : Go state error :=
  let cpath := CString path in
  code <- yr_rules_scan_file C (Rules_handle r) cpath 0 callback fn 0 ;;
  if negb (code =? ERROR_SUCCESS) then ret (of_Error code)
  else ret nil_error.

End Binding.

Arguments state : clear implicits.
Arguments C_package : clear implicits.
Arguments Callback : clear implicits.

(** ** A reference engine

    [yara.go] decides nothing about matching: it relies on libyara.  To run
    the binding, this module gives the C side a small implementation that
    follows the spec's description of the engine, over whatever the spec
    leaves to it (the rule grammar, the evaluation of a condition, the
    numeric codes of failures). *)

Module Engine.

(** Modelled from the spec: "the rule grammar/parser, the pattern-matching
    and condition-evaluation algorithm itself [...] and the binary layout
    of the compiled artifact [...] are owned by an external native
    pattern-matching engine".  [parse] gives the number of compile errors
    of a text and the rules of it that compiled; the failure codes are
    "any non-success status code". *)
Record external : Type := {
  rule_ast : Type;
  parse : string -> Z * list rule_ast;
  shown : rule_ast -> YR_RULE;
  satisfied : rule_ast -> list byte -> bool;
  artifact_bytes : list (string * rule_ast) -> list byte;
  ERROR_CALLBACK_ERROR : Z;
  ERROR_COULD_NOT_OPEN_FILE : Z;
  ERROR_INVALID_FILE : Z;
  ERROR_BUSY : Z;
  callback_error_is_failure : ERROR_CALLBACK_ERROR ≠ ERROR_SUCCESS;
  could_not_open_is_failure : ERROR_COULD_NOT_OPEN_FILE ≠ ERROR_SUCCESS;
  invalid_file_is_failure : ERROR_INVALID_FILE ≠ ERROR_SUCCESS;
  busy_is_failure : ERROR_BUSY ≠ ERROR_SUCCESS
}.

(** The calls the engine has received, for the statements about which
    calls a function of the binding makes. *)
Inductive call : Type :=
| call_fopen (path mode : string)
| call_fclose (fd : pointer)
| call_yr_finalize
| call_yr_compiler_create
| call_yr_compiler_destroy (h : pointer)
| call_yr_compiler_add_file (h fd : pointer) (ns : option string) (path : string)
| call_yr_compiler_add_string (h : pointer) (text : string) (ns : option string)
| call_yr_compiler_get_rules (h : pointer)
| call_yr_rules_load (path : string)
| call_yr_rules_save (h : pointer) (path : string)
| call_yr_rules_destroy (h : pointer)
| call_yr_rules_scan_mem (h : pointer) (data : list byte) (size flags timeout : Z)
| call_yr_rules_scan_file (h : pointer) (path : string) (flags timeout : Z).

Section Model.

Variable X : external.
Context {G : Type}.

(** A compiled rule: the namespace it was merged under, and the rule. *)
Definition crule : Type := string * rule_ast X.

(** A file holds bytes, or a saved rule set ("the artifact format is
    opaque and owned by the external engine": it is kept as the rules
    it restores to). *)
Inductive content : Type :=
| Bytes (b : list byte)
| Image (rs : list crule).

Definition bytes_of (f : content) : list byte :=
  match f with
  | Bytes b => b
  | Image rs => artifact_bytes X rs
  end.

Record world : Type := {
  compilers : gmap N (list crule);
  rulesets : gmap N (list crule);
  streams : gmap N (list byte);
  files : gmap string content;
  readonly : gset string;
  calls : list call
}.

Definition log (c : call) (w : world) : world :=
  {| compilers := compilers w; rulesets := rulesets w;
     streams := streams w; files := files w; readonly := readonly w;
     calls := calls w ++ [c] |}.

Definition with_compilers (m : gmap N (list crule)) (w : world) : world :=
  {| compilers := m; rulesets := rulesets w; streams := streams w;
     files := files w; readonly := readonly w; calls := calls w |}.

Definition with_rulesets (m : gmap N (list crule)) (w : world) : world :=
  {| compilers := compilers w; rulesets := m; streams := streams w;
     files := files w; readonly := readonly w; calls := calls w |}.

Definition with_streams (m : gmap N (list byte)) (w : world) : world :=
  {| compilers := compilers w; rulesets := rulesets w; streams := m;
     files := files w; readonly := readonly w; calls := calls w |}.

Definition with_files (m : gmap string content) (w : world) : world :=
  {| compilers := compilers w; rulesets := rulesets w;
     streams := streams w; files := m; readonly := readonly w;
     calls := calls w |}.

(** An address in use nowhere, and not [NULL]. *)
Definition alloc (w : world) : pointer :=
  fresh ({[NULL]} ∪ dom (compilers w) ∪ dom (rulesets w) ∪ dom (streams w)).

(** *** Compilation *)

(** Modelled from the spec: an identifier is "unique within its
    namespace at compile time", and "identical identifiers in different
    namespaces denote distinct rules". *)
Definition declared (ns id : string) (session : list crule) : bool :=
  existsb
    (fun r => bool_decide (r.1 = ns) && bool_decide (identifier (shown X r.2) = id))
    session.

(** Modelled from the spec: a source is compiled and "merges into the
    session under [namespace]"; the session "holds accumulated, possibly
    partially-erroring, compiled state".  A rule whose identifier the
    namespace has already is one more error and is left out. *)
Fixpoint merge (ns : string) (new : list (rule_ast X)) (session : list crule)
  : Z * list crule :=
  match new with
  | [] => (0, session)
  | a :: rest =>
      if declared ns (identifier (shown X a)) session then
        let '(n, session') := merge ns rest session in (1 + n, session')
      else merge ns rest (session ++ [(ns, a)])
  end.

Definition add_source (ns : option string) (text : string)
    (session : list crule) : Z * list crule :=
  let '(e, new) := parse X text in
  let '(d, session') := merge (default "default"%string ns) new session in
  (e + d, session').

(** *** The C functions *)

(** Modelled from the spec: [fopen] "opens [path] for reading"; no such
    file, no stream. *)
Definition fopen (path mode : string) : Native (W := world) pointer :=
  fun w =>
    let w := log (call_fopen path mode) w in
    match files w !! path with
    | Some f =>
        let fd := alloc w in
        Some (fd, with_streams (<[fd := bytes_of f]> (streams w)) w)
    | None => Some (NULL, w)
    end.

Definition fclose (fd : pointer) : Native (W := world) Z :=
  fun w =>
    let w := log (call_fclose fd) w in
    match streams w !! fd with
    | Some _ => Some (0, with_streams (delete fd (streams w)) w)
    | None => None
    end.

(** Modelled from the spec: [engine_finalize()] "releases global engine
    state; fails with an ErrorModel code if outstanding resources
    prevent teardown". *)
Definition yr_finalize : Native (W := world) Z :=
  fun w =>
    let w := log call_yr_finalize w in
    if bool_decide (compilers w = ∅ ∧ rulesets w = ∅) then Some (ERROR_SUCCESS, w)
    else Some (ERROR_BUSY X, w).

(** Modelled from the spec: [compiler_create() -> handle]. *)
Definition yr_compiler_create : Native (W := world) (Z * pointer) :=
  fun w =>
    let w := log call_yr_compiler_create w in
    let h := alloc w in
    Some ((ERROR_SUCCESS, h), with_compilers (<[h := []]> (compilers w)) w).

(** Modelled from the spec: [compiler_destroy(handle)]; a handle is
    "destroyed exactly once; any use after destruction is a programming
    error", which the native layer answers with "undefined behavior". *)
Definition yr_compiler_destroy (h : pointer) : Native (W := world) unit :=
  fun w =>
    let w := log (call_yr_compiler_destroy h) w in
    match compilers w !! h with
    | Some _ => Some (tt, with_compilers (delete h (compilers w)) w)
    | None => None
    end.

(** Modelled from the spec:
    [compiler_add_file(handle, file_descriptor, namespace, source_path)
    -> error_count]. *)
Definition yr_compiler_add_file (h fd : pointer) (ns : option string)
    (path : string) : Native (W := world) Z :=
  fun w =>
    let w := log (call_yr_compiler_add_file h fd ns path) w in
    match compilers w !! h, streams w !! fd with
    | Some session, Some b =>
        let '(n, session') := add_source ns (string_of_list_byte b) session in
        Some (n, with_compilers (<[h := session']> (compilers w)) w)
    | _, _ => None
    end.

(** Modelled from the spec:
    [compiler_add_string(handle, rule_text, namespace) -> error_count]. *)
Definition yr_compiler_add_string (h : pointer) (text : string)
    (ns : option string) : Native (W := world) Z :=
  fun w =>
    let w := log (call_yr_compiler_add_string h text ns) w in
    match compilers w !! h with
    | Some session =>
        let '(n, session') := add_source ns text session in
        Some (n, with_compilers (<[h := session']> (compilers w)) w)
    | None => None
    end.

(** Modelled from the spec: [compiler_get_rules(handle) ->
    ruleset_handle] "finalizes the accumulated session into an
    immutable RuleSet"; what becomes of the session is left open by the
    spec, here it stays. *)
Definition yr_compiler_get_rules (h : pointer)
  : Native (W := world) (Z * pointer) :=
  fun w =>
    let w := log (call_yr_compiler_get_rules h) w in
    match compilers w !! h with
    | Some session =>
        let r := alloc w in
        Some ((ERROR_SUCCESS, r), with_rulesets (<[r := session]> (rulesets w)) w)
    | None => None
    end.

(** Modelled from the spec: [ruleset_load(path) -> ruleset_handle]
    "deserializes a previously saved artifact"; "corruption or version
    mismatch is surfaced as a distinct error from plain I/O failure". *)
Definition yr_rules_load (path : string) : Native (W := world) (Z * pointer) :=
  fun w =>
    let w := log (call_yr_rules_load path) w in
    match files w !! path with
    | None => Some ((ERROR_COULD_NOT_OPEN_FILE X, NULL), w)
    | Some (Bytes _) => Some ((ERROR_INVALID_FILE X, NULL), w)
    | Some (Image rs) =>
        let r := alloc w in
        Some ((ERROR_SUCCESS, r), with_rulesets (<[r := rs]> (rulesets w)) w)
    end.

(** Modelled from the spec: [ruleset_save(ruleset_handle, path) ->
    status] "serializes to [path], overwriting any existing content;
    I/O failure surfaced". *)
Definition yr_rules_save (h : pointer) (path : string) : Native (W := world) Z :=
  fun w =>
    let w := log (call_yr_rules_save h path) w in
    match rulesets w !! h with
    | Some rs =>
        if bool_decide (path ∈ readonly w) then Some (ERROR_COULD_NOT_OPEN_FILE X, w)
        else Some (ERROR_SUCCESS, with_files (<[path := Image rs]> (files w)) w)
    | None => None
    end.

(** Modelled from the spec: [ruleset_destroy(ruleset_handle)], "same
    single-destroy discipline as Compiler". *)
Definition yr_rules_destroy (h : pointer) : Native (W := world) unit :=
  fun w =>
    let w := log (call_yr_rules_destroy h) w in
    match rulesets w !! h with
    | Some _ => Some (tt, with_rulesets (delete h (rulesets w)) w)
    | None => None
    end.

(** *** Scanning *)

(** Modelled from the spec: a scan "evaluates every compiled rule's
    condition against [buffer]; for each rule whose condition is
    satisfied, synchronously constructs a Rule match record and invokes
    [callback(record)]".  On Continue it proceeds "to evaluate remaining
    rules"; on Abort it stops and "returns success"; on Fail it stops
    and returns "a non-nil error". *)
Fixpoint scan (rs : list crule) (data : list byte)
    (cb : @YR_CALLBACK_FUNC world G) (user_data : Callback G)
  : Go (state world G) Z :=
  match rs with
  | [] => ret ERROR_SUCCESS
  | r :: rest =>
      if satisfied X r.2 data then
        (status <- cb (shown X r.2) user_data ;;
         if status =? CALLBACK_ABORT then ret ERROR_SUCCESS
         else if status =? CALLBACK_ERROR then ret (ERROR_CALLBACK_ERROR X)
         else scan rest data cb user_data)%go
      else scan rest data cb user_data
  end.

Definition logged (c : call) (s : state world G) : state world G :=
  {| native := log c (native s); closure := closure s;
     invoked := invoked s |}.

(** Modelled from the spec: [ruleset_scan_mem(ruleset_handle, data_ptr,
    size, flags, match_callback, context_ptr, timeout) -> status]; the
    engine reads [size] bytes from [data_ptr]. *)
Definition yr_rules_scan_mem (h : pointer) (data : list byte)
    (size flags : Z) (cb : @YR_CALLBACK_FUNC world G)
    (user_data : Callback G) (timeout : Z) : Go (state world G) Z :=
  fun s =>
    let s := logged (call_yr_rules_scan_mem h data size flags timeout) s in
    match rulesets (native s) !! h with
    | Some rs => scan rs (take (Z.to_nat size) data) cb user_data s
    | None => Undefined
    end.

(** Modelled from the spec: [ruleset_scan_file(ruleset_handle, path,
    flags, match_callback, context_ptr, timeout) -> status]: "the engine
    reads [path] internally", and a path that cannot be opened fails the
    scan "before any callback is invoked". *)
Definition yr_rules_scan_file (h : pointer) (path : string) (flags : Z)
    (cb : @YR_CALLBACK_FUNC world G) (user_data : Callback G)
    (timeout : Z) : Go (state world G) Z :=
  fun s =>
    let s := logged (call_yr_rules_scan_file h path flags timeout) s in
    match rulesets (native s) !! h with
    | Some rs =>
        match files (native s) !! path with
        | Some f => scan rs (bytes_of f) cb user_data s
        | None => Done (ERROR_COULD_NOT_OPEN_FILE X) s
        end
    | None => Undefined
    end.

(** The C side as the binding sees it. *)
Definition libyara : C_package world G :=
  @Build_C_package world G
    fopen fclose yr_finalize yr_compiler_create yr_compiler_destroy
    yr_compiler_add_file yr_compiler_add_string yr_compiler_get_rules
    yr_rules_load yr_rules_save yr_rules_destroy
    yr_rules_scan_mem yr_rules_scan_file.

(** A process that has touched nothing yet, with the given files. *)
Definition boot (fs : gmap string content) (ro : gset string) (g : G)
  : state world G :=
  {| native := {| compilers := ∅; rulesets := ∅; streams := ∅;
                  files := fs; readonly := ro; calls := [] |};
     closure := g; invoked := [] |}.

End Model.

Arguments Bytes {X} b.
Arguments Image {X} rs.

End Engine.

(** ** A sample engine, to run the binding on concrete inputs

    Its grammar has one form of rule, [name=literal], satisfied by the
    buffers that hold the bytes of the literal; a text with no [=] is one
    compile error.  The failure codes are those of libyara's [error.h]. *)

Module Sample.

Record literal_rule : Type := { name : string; literal : list byte }.

Fixpoint starts_with (p b : list byte) : bool :=
  match p, b with
  | [], _ => true
  | x :: p', y :: b' => Byte.eqb x y && starts_with p' b'
  | _ :: _, [] => false
  end.

Fixpoint holds (p b : list byte) : bool :=
  starts_with p b ||
  match b with
  | [] => false
  | _ :: b' => holds p b'
  end.

Fixpoint split_at_equals (s : string) : option (string * string) :=
  match s with
  | EmptyString => None
  | String c rest =>
      if Ascii.eqb c "="%char then Some (EmptyString, rest)
      else
        match split_at_equals rest with
        | Some (a, b) => Some (String c a, b)
        | None => None
        end
  end.

Definition parse (text : string) : Z * list literal_rule :=
  match split_at_equals text with
  | Some (n, l) => (0, [ {| name := n; literal := list_byte_of_string l |} ])
  | None => (1, [])
  end.

Definition shown (r : literal_rule) : YR_RULE :=
  {| identifier := name r; tags := []; metas := [] |}.

Definition engine : Engine.external :=
  {| Engine.rule_ast := literal_rule;
     Engine.parse := parse;
     Engine.shown := shown;
     Engine.satisfied := fun r b => holds (literal r) b;
     Engine.artifact_bytes := fun _ => [];
     Engine.ERROR_CALLBACK_ERROR := 28;
     Engine.ERROR_COULD_NOT_OPEN_FILE := 3;
     Engine.ERROR_INVALID_FILE := 6;
     Engine.ERROR_BUSY := 31;
     Engine.callback_error_is_failure := ltac:(unfold ERROR_SUCCESS; lia);
     Engine.could_not_open_is_failure := ltac:(unfold ERROR_SUCCESS; lia);
     Engine.invalid_file_is_failure := ltac:(unfold ERROR_SUCCESS; lia);
     Engine.busy_is_failure := ltac:(unfold ERROR_SUCCESS; lia) |}.

(** The binding on the sample engine; the callbacks count their
    invocations.  [%q] is taken as the text between two quote marks. *)
Definition world : Type := Engine.world engine.
Definition St : Type := state world nat.
Definition C : C_package world nat := Engine.libyara engine.

Definition quote_mark : ascii := ascii_of_nat 34.
Definition fmt_q (s : string) : string :=
  String quote_mark (s +:+ String quote_mark EmptyString).

(** A handler that answers [status] to every match. *)
Definition always (status : CallbackStatus) : Callback nat :=
  fun _ n => (status, S n).

Definition bytes (s : string) : list byte := list_byte_of_string s.

Definition boot (fs : gmap string (Engine.content engine)) : St :=
  Engine.boot engine fs ∅ 0%nat.

(** Three rule files: two that declare a rule of the same name, one that
    does not compile. *)
Definition sources : gmap string (Engine.content engine) :=
  {[ "a.yar"%string := Engine.Bytes (bytes "R=abc");
     "b.yar"%string := Engine.Bytes (bytes "R=xyz");
     "bad.yar"%string := Engine.Bytes (bytes "nonsense") ]}.

(** The state a program leaves, whatever its outcome. *)
Definition state_after {A} (m : Go St A) (s : St) : St :=
  match m s with
  | Done _ s' => s'
  | Panicked _ s' => s'
  | Undefined => s
  end.

(** A process with one compiler and nothing compiled yet. *)
Definition compiler : Compiler := {| Compiler_handle := 1%N |}.
Definition compiling : St := state_after (NewCompiler C) (boot sources).

(** A process with a rule set of two rules, both satisfied by a buffer
    that holds [abc]. *)
Definition rules : Rules := {| Rules_handle := 2%N |}.
Definition scanning : St :=
  state_after
    (Compiler_AddString C compiler "a" "first=abc" ;;;
     Compiler_AddString C compiler "b" "second=bc" ;;;
     Compiler_Rules C compiler)%go
    compiling.

(** The same name declared under two namespaces, through [AddFile] and
    through [AddString]. *)
Definition two_files : Go St (error * error) :=
  (e1 <- Compiler_AddFile C fmt_q compiler "a" "a.yar" ;;
   e2 <- Compiler_AddFile C fmt_q compiler "b" "b.yar" ;;
   ret (e1, e2))%go.

Definition two_strings : Go St (error * error) :=
  (e1 <- Compiler_AddString C compiler "a" "R=abc" ;;
   e2 <- Compiler_AddString C compiler "b" "R=xyz" ;;
   ret (e1, e2))%go.

(** The rules a compiler holds, with their namespaces. *)
Definition session_of (c : Compiler) (s : St)
  : option (list (string * literal_rule)) :=
  Engine.compilers engine (native s) !! Compiler_handle c.

(** The spec's concrete scenario: one rule [test] for the literal [abc],
    compiled under the namespace [default], then a scan of [buffer]; the
    result is the error of the scan and the records the handler saw. *)
Definition scenario (buffer : string) : Go St (error * list Rule) :=
  (Compiler_AddString C compiler "default" "test=abc" ;;;
   out <- Compiler_Rules C compiler ;;
   match out.1 with
   | Some r =>
       e <- Rules_ScanMemory C r (bytes buffer) (always Continue) ;;
       fun s => Done (e, invoked s) s
   | None => ret (out.2, [])
   end)%go.

(** A compiler, and a rule set, destroyed twice. *)
Definition destroy_twice : Go St unit :=
  (Compiler_Destroy C compiler ;;; Compiler_Destroy C compiler)%go.

Definition destroy_rules_twice : Go St unit :=
  (Rules_Destroy C rules ;;; Rules_Destroy C rules)%go.

End Sample.

(** ** Vocabulary of the statements *)

(** The spec's ErrorModel, in its words: "every native status code is
    mapped to either success (the designated success sentinel) or a
    numeric Error value carrying that code". *)
Definition ErrorModel (code : Z) : error :=
  if decide (code = ERROR_SUCCESS) then nil_error else of_Error code.

(** The errors of a compilation, as [yara.go] words them. *)
Definition open_failure (fmt_q : string -> string) (path : string) : error :=
  fmt_Errorf ("libyara: failed to open " +:+ fmt_q path).

Definition compile_failure_of_file (fmt_q : string -> string) (path : string)
  : error :=
  fmt_Errorf ("libyara: failed to compile " +:+ fmt_q path).

Definition compile_failure_of_string : error :=
  fmt_Errorf "libyara: failed to compile rule".

(** The panic of Go on [&buffer[0]] for a buffer with no element. *)
Definition index_out_of_range_0 : string :=
  "runtime error: index out of range [0] with length 0".

(** The match record the callback of a scan is invoked with for a rule:
    the three fields copied over. *)
Definition record_of (ev : YR_RULE) : Rule :=
  {| Identifier := identifier ev;
     Tags := fold_left (fun s x => Some (default [] s ++ [x])) (tags ev) None;
     Metadata :=
       Some (fold_left (fun (m : gmap string string) kv => <[kv.1 := kv.2]> m)
               (metas ev) ∅) |}.

(** An engine status error, as opposed to an error that is a message. *)
Definition is_status_error (e : error) : Prop := ∃ code, e = of_Error code.

(** A state with another C side. *)
Definition with_native {W G} (w : W) (s : state W G) : state W G :=
  {| native := w; closure := closure s; invoked := invoked s |}.

(** A failure the engine reported: an [Error] whose code is not the
    success sentinel. *)
Definition failure (e : error) : Prop :=
  exists code, code <> ERROR_SUCCESS /\ e = of_Error code.

(** A caller that uses the binding in the order its functions are made
    for: one text compiled under a namespace, one buffer scanned, and what
    was created destroyed again on every path, the rule set before the
    compiler (the caller's deferred calls), the first error returned. *)
Definition compile_and_scan {W G} (C : C_package W G) (ns rule : string)
    (buffer : list byte) (fn : Callback G) : Go (state W G) error :=
  (out <- NewCompiler C ;;
   match out.1 with
   | None => ret out.2
   | Some c =>
       e <- Compiler_AddString C c ns rule ;;
       match e with
       | nil_error =>
           out' <- Compiler_Rules C c ;;
           match out'.1 with
           | None => Compiler_Destroy C c ;;; ret out'.2
           | Some r =>
               e' <- Rules_ScanMemory C r buffer fn ;;
               Rules_Destroy C r ;;;
               Compiler_Destroy C c ;;;
               ret e'
           end
       | _ => Compiler_Destroy C c ;;; ret e
       end
   end)%go.

(** * What the binding guarantees *)

(** ** Steps of the monad *)

Lemma bind_Done {St A B} (m : Go St A) (k : A -> Go St B) s a s' :
  m s = Done a s' -> bind m k s = k a s'.
Proof. intros H. unfold bind. now rewrite H. Qed.

Lemma bind_Panicked {St A B} (m : Go St A) (k : A -> Go St B) s msg s' :
  m s = Panicked msg s' -> bind m k s = Panicked msg s'.
Proof. intros H. unfold bind. now rewrite H. Qed.

Lemma bind_Undefined {St A B} (m : Go St A) (k : A -> Go St B) s :
  m s = Undefined -> bind m k s = Undefined.
Proof. intros H. unfold bind. now rewrite H. Qed.

Lemma cgo_Done {W G A} (f : Native A) (s : state W G) a w :
  f (native s) = Some (a, w) -> cgo f s = Done a (with_native w s).
Proof. intros H. unfold cgo. now rewrite H. Qed.

Lemma cgo_Undefined {W G A} (f : Native A) (s : state W G) :
  f (native s) = None -> cgo (A := A) f s = Undefined.
Proof. intros H. unfold cgo. now rewrite H. Qed.

(** ** The translation of a status code *)

(** The test [code != C.ERROR_SUCCESS] of [yara.go] and the two returns
    under it are the ErrorModel of the spec. *)
Lemma status_test_is_ErrorModel (code : Z) :
  (if negb (code =? ERROR_SUCCESS) then of_Error code else nil_error)
  = ErrorModel code.
Proof.
  unfold ErrorModel.
  destruct (Z.eqb_spec code ERROR_SUCCESS) as [Heq | Hne]; simpl.
  - now rewrite decide_True.
  - now rewrite decide_False.
Qed.

Lemma ErrorModel_nil (code : Z) :
  ErrorModel code = nil_error <-> code = ERROR_SUCCESS.
Proof.
  unfold ErrorModel. destruct (decide (code = ERROR_SUCCESS)); split; intros H;
    try reflexivity; try assumption; try discriminate; contradiction.
Qed.

Lemma ErrorModel_failure (code : Z) :
  code <> ERROR_SUCCESS -> ErrorModel code = of_Error code.
Proof. intros H. unfold ErrorModel. now rewrite decide_False. Qed.

Section Translation.

Context {W G : Type} (C : C_package W G).

Ltac translate H :=
  rewrite (bind_Done _ _ _ _ _ H); simpl;
  rewrite <- status_test_is_ErrorModel;
  match goal with
  | |- context [?c =? ERROR_SUCCESS] =>
      destruct (Z.eqb_spec c ERROR_SUCCESS) as [-> | Hne]; simpl;
      [ rewrite ?decide_True by reflexivity
      | rewrite ?decide_False by assumption ]; reflexivity
  end.

(** C6. Every function of the binding that receives a status code from
    the engine (Finalize, NewCompiler, Compiler.Rules, LoadFromFile,
    Rules.Save, Rules.ScanMemory, Rules.ScanFile) returns nil exactly when
    the code is the success sentinel and otherwise the [Error] that
    carries this very code; no code is read in any other way.  (For
    ScanMemory the engine is reached on a buffer with a first element.) *)
Theorem status_code_translation (s s' : state W G) (code : Z) :
  (ErrorModel code = nil_error <-> code = ERROR_SUCCESS) /\
  (code <> ERROR_SUCCESS -> ErrorModel code = of_Error code) /\
  (cgo (yr_finalize C) s = Done code s' ->
   Finalize C s = Done (ErrorModel code) s') /\
  (forall h,
      cgo (yr_compiler_create C) s = Done (code, h) s' ->
      NewCompiler C s =
      Done (if decide (code = ERROR_SUCCESS)
            then Some {| Compiler_handle := h |} else None,
            ErrorModel code) s') /\
  (forall c h,
      cgo (yr_compiler_get_rules C (Compiler_handle c)) s = Done (code, h) s' ->
      Compiler_Rules C c s =
      Done (if decide (code = ERROR_SUCCESS)
            then Some {| Rules_handle := h |} else None,
            ErrorModel code) s') /\
  (forall path h,
      cgo (yr_rules_load C (CString path)) s = Done (code, h) s' ->
      LoadFromFile C path s =
      Done (if decide (code = ERROR_SUCCESS)
            then Some {| Rules_handle := h |} else None,
            ErrorModel code) s') /\
  (forall r path,
      cgo (yr_rules_save C (Rules_handle r) (CString path)) s = Done code s' ->
      Rules_Save C r path s = Done (ErrorModel code) s') /\
  (forall r b buffer fn,
      yr_rules_scan_mem C (Rules_handle r) (b :: buffer)
        (Z.of_nat (length (b :: buffer))) 0 callback fn 0 s = Done code s' ->
      Rules_ScanMemory C r (b :: buffer) fn s = Done (ErrorModel code) s') /\
  (forall r path fn,
      yr_rules_scan_file C (Rules_handle r) (CString path) 0 callback fn 0 s
      = Done code s' ->
      Rules_ScanFile C r path fn s = Done (ErrorModel code) s').
Proof.
  split; [apply ErrorModel_nil |].
  split; [apply ErrorModel_failure |].
  split; [intros H; unfold Finalize; translate H |].
  split; [intros h H; unfold NewCompiler; translate H |].
  split; [intros c h H; unfold Compiler_Rules; translate H |].
  split; [intros path h H; unfold LoadFromFile; translate H |].
  split; [intros r path H; unfold Rules_Save; translate H |].
  split; [| intros r path fn H; unfold Rules_ScanFile; translate H].
  intros r b buffer fn H. unfold Rules_ScanMemory.
  assert (Hidx : addr_of_index (b :: buffer) 0 s = Done (b :: buffer) s)
    by reflexivity.
  rewrite (bind_Done _ _ _ _ _ Hidx). translate H.
Qed.

End Translation.

(** ** Compilation: AddFile and AddString *)

Lemma failure_messages_differ (fmt_q : string -> string) (path path' : string) :
  open_failure fmt_q path <> compile_failure_of_file fmt_q path' /\
  open_failure fmt_q path <> compile_failure_of_string /\
  open_failure fmt_q path <> nil_error /\
  compile_failure_of_file fmt_q path' <> nil_error /\
  compile_failure_of_string <> nil_error.
Proof.
  unfold open_failure, compile_failure_of_file, compile_failure_of_string.
  repeat split; intros H; cbn in H; discriminate H.
Qed.

Section Compilation.

Context {W G : Type} (C : C_package W G) (fmt_q : string -> string).

(** The namespace handed to [AddFile] reaches nothing: the function is the
    same for every [ns]. *)
Lemma AddFile_namespace_irrelevant (c : Compiler) (ns ns' path : string)
    (s : state W G) :
  Compiler_AddFile C fmt_q c ns path s = Compiler_AddFile C fmt_q c ns' path s.
Proof. reflexivity. Qed.

(** C7. [AddString] and [AddFile] return their compile-failure error
    exactly when the error count the engine reports is greater than zero,
    one fixed value whatever the count; [AddFile] answers a path that
    [fopen] could not open with another error, and in the state [fopen]
    left: the engine was not called. *)
Theorem compile_failure_signal (c : Compiler) (ns : string) (s : state W G) :
  (forall rule n s',
      cgo (yr_compiler_add_string C (Compiler_handle c) (CString rule)
             (Some (CString ns))) s = Done n s' ->
      exists e,
        Compiler_AddString C c ns rule s = Done e s' /\
        (e = compile_failure_of_string <-> 0 < n) /\
        (e = nil_error <-> n <= 0)) /\
  (forall path fd s1 n s2 z s3,
      cgo (fopen C (CString path) "r") s = Done fd s1 ->
      fd <> NULL ->
      cgo (yr_compiler_add_file C (Compiler_handle c) fd None (CString path)) s1
      = Done n s2 ->
      cgo (fclose C fd) s2 = Done z s3 ->
      exists e,
        Compiler_AddFile C fmt_q c ns path s = Done e s3 /\
        (e = compile_failure_of_file fmt_q path <-> 0 < n) /\
        (e = nil_error <-> n <= 0)) /\
  (forall path s1,
      cgo (fopen C (CString path) "r") s = Done NULL s1 ->
      Compiler_AddFile C fmt_q c ns path s = Done (open_failure fmt_q path) s1) /\
  (forall path path',
      open_failure fmt_q path <> compile_failure_of_file fmt_q path' /\
      open_failure fmt_q path <> nil_error).
Proof.
  split; [| split; [| split]].
  - intros rule n s' H. unfold Compiler_AddString.
    rewrite (bind_Done _ _ _ _ _ H).
    destruct (Z.gtb_spec n 0) as [Hpos | Hle].
    + exists compile_failure_of_string. split; [reflexivity |].
      split; split; intros E; try reflexivity; try lia; discriminate E.
    + exists nil_error. split; [reflexivity |].
      split; split; intros E; try reflexivity; try lia; discriminate E.
  - intros path fd s1 n s2 z s3 Hopen Hfd Hadd Hclose. unfold Compiler_AddFile.
    change (CString "r") with "r"%string.
    rewrite (bind_Done _ _ _ _ _ Hopen).
    destruct (N.eqb_spec fd NULL) as [Heq | _]; [contradiction |].
    rewrite (bind_Done _ _ _ _ _ Hadd).
    destruct (failure_messages_differ fmt_q path path) as (_ & _ & _ & Hnil & _).
    destruct (Z.gtb_spec n 0) as [Hpos | Hle];
      rewrite (bind_Done _ _ _ _ _ Hclose).
    + exists (compile_failure_of_file fmt_q path). split; [reflexivity |].
      split; split; intros E; try reflexivity; try lia.
      congruence.
    + exists nil_error. split; [reflexivity |].
      split; split; intros E; try reflexivity; try lia.
      congruence.
  - intros path s1 Hopen. unfold Compiler_AddFile.
    change (CString "r") with "r"%string.
    now rewrite (bind_Done _ _ _ _ _ Hopen).
  - intros path path'.
    destruct (failure_messages_differ fmt_q path path') as (H1 & _ & H2 & _).
    now split.
Qed.

(** ** Scanning a buffer *)

(** On a buffer with a first byte, [ScanMemory] hands the whole buffer and
    its length to the engine and translates the status it gets. *)
Lemma ScanMemory_nonempty (r : Rules) (fn : Callback G) (s : state W G)
    (b : byte) (buffer : list byte) :
  Rules_ScanMemory C r (b :: buffer) fn s =
  bind (yr_rules_scan_mem C (Rules_handle r) (b :: buffer)
          (Z.of_nat (length (b :: buffer))) 0 callback fn 0)
       (fun code => ret (ErrorModel code)) s.
Proof.
  unfold Rules_ScanMemory.
  assert (Hidx : addr_of_index (b :: buffer) 0 s = Done (b :: buffer) s)
    by reflexivity.
  rewrite (bind_Done _ _ _ _ _ Hidx). unfold bind.
  destruct (yr_rules_scan_mem C _ _ _ _ _ _ _ s) as [code s' | msg s' |];
    try reflexivity.
  rewrite <- status_test_is_ErrorModel.
  now destruct (code =? ERROR_SUCCESS).
Qed.

(** Whatever the engine does, an error [ScanFile] returns is nil or an
    engine status: the function builds no other. *)
Lemma ScanFile_error_is_status (r : Rules) (path : string) (fn : Callback G)
    (s s' : state W G) (e : error) :
  Rules_ScanFile C r path fn s = Done e s' ->
  e = nil_error \/ is_status_error e.
Proof.
  unfold Rules_ScanFile, bind.
  destruct (yr_rules_scan_file C _ _ _ _ _ _ s) as [code s1 | msg s1 |];
    try discriminate.
  destruct (code =? ERROR_SUCCESS); intros H; injection H as <- <-.
  - now left.
  - right. now exists code.
Qed.

(** C2, as the code has it. [ScanMemory] takes the address of the first
    byte before anything else: on a buffer with no byte this is Go's
    index-out-of-range panic, in the state the call started in (no check,
    no error value, the engine not reached); on any other buffer the whole
    buffer and its length go to the engine, and its status is translated. *)
Theorem ScanMemory_empty_buffer_panics (r : Rules) (fn : Callback G)
    (s : state W G) :
  Rules_ScanMemory C r [] fn s = Panicked index_out_of_range_0 s /\
  (forall b buffer,
      Rules_ScanMemory C r (b :: buffer) fn s =
      bind (yr_rules_scan_mem C (Rules_handle r) (b :: buffer)
              (Z.of_nat (length (b :: buffer))) 0 callback fn 0)
           (fun code => ret (ErrorModel code)) s).
Proof.
  split; [reflexivity |].
  intros b buffer. apply ScanMemory_nonempty.
Qed.

End Compilation.

(** ** The match record *)

(** C10. [NewRule] returns a record with the empty identifier, the nil
    slice of tags and a map that is not nil and has no entry, so that an
    assignment to its metadata, and any run of assignments, succeeds; and a
    record is its three fields (identifier, tags, metadata), nothing
    else. *)
Theorem NewRule_is_ready_for_metadata {W G : Type} :
  Identifier NewRule = ""%string /\
  Tags NewRule = None /\
  Metadata NewRule = Some ∅ /\
  (forall (k v : string) (s : state W G),
      mapassign (Metadata NewRule) k v s = Done (Some {[ k := v ]}) s) /\
  (forall (kvs : list (string * string)) (s : state W G),
      exists t, assign_all (Metadata NewRule) kvs s = Done (Some t) s) /\
  (forall r : Rule,
      r = {| Identifier := Identifier r; Tags := Tags r; Metadata := Metadata r |}).
Proof.
  repeat split.
  - intros kvs s.
    change (Metadata NewRule) with (Some (∅ : gmap string string)).
    generalize (∅ : gmap string string).
    induction kvs as [| [k v] rest IH]; intros t.
    + exists t. reflexivity.
    + simpl. apply IH.
  - intros [i t m]. reflexivity.
Qed.

(** ** The binding on the reference engine *)

Section OnTheEngine.

Context (X : Engine.external) {G : Type}.

Abbreviation St := (state (Engine.world X) G).
Abbreviation libyara := (Engine.libyara X (G := G)).

(** *** The callback handed to the engine *)

Lemma assign_all_Some (t : gmap string string) (kvs : list (string * string))
    (s : St) :
  assign_all (Some t) kvs s =
  Done (Some (fold_left (fun (m : gmap string string) kv => <[kv.1 := kv.2]> m)
                kvs t)) s.
Proof.
  revert t. induction kvs as [| [k v] rest IH]; intros t.
  - reflexivity.
  - simpl. unfold bind. simpl. apply IH.
Qed.

Lemma rule_of_match_record (ev : YR_RULE) (s : St) :
  rule_of_match ev s = Done (record_of ev) s.
Proof.
  unfold rule_of_match.
  change (Metadata NewRule) with (Some (∅ : gmap string string)).
  rewrite (bind_Done _ _ _ _ _ (assign_all_Some ∅ (metas ev) s)).
  reflexivity.
Qed.

(** One invocation of the caller's handler: the record is noted, the
    handler's closure moves on, its status goes back to the engine. *)
Lemma callback_step (ev : YR_RULE) (fn : Callback G) (s : St) :
  callback ev fn s =
  Done (fn (record_of ev) (closure s)).1
    {| native := native s;
       closure := (fn (record_of ev) (closure s)).2;
       invoked := invoked s ++ [record_of ev] |}.
Proof.
  unfold callback. rewrite (bind_Done _ _ _ _ _ (rule_of_match_record ev s)).
  destruct (fn (record_of ev) (closure s)) as [status g]. reflexivity.
Qed.

(** A scan with that callback returns, and acts on the Go side only. *)
Lemma scan_frame (rs : list (Engine.crule X)) (data : list byte)
    (fn : Callback G) (s : St) :
  exists code g seen,
    forall w,
      Engine.scan X rs data callback fn (with_native w s) =
      Done code {| native := w; closure := g; invoked := seen |}.
Proof.
  revert s. induction rs as [| r rest IH]; intros s.
  - exists ERROR_SUCCESS, (closure s), (invoked s). reflexivity.
  - simpl. destruct (Engine.satisfied X r.2 data).
    + set (status := (fn (record_of (Engine.shown X r.2)) (closure s)).1).
      set (g := (fn (record_of (Engine.shown X r.2)) (closure s)).2).
      set (seen := invoked s ++ [record_of (Engine.shown X r.2)]).
      destruct (IH {| native := native s; closure := g; invoked := seen |})
        as (code' & g' & seen' & Hrest).
      destruct (status =? CALLBACK_ABORT) eqn:Habort;
        [| destruct (status =? CALLBACK_ERROR) eqn:Herror].
      * exists ERROR_SUCCESS, g, seen. intros w.
        rewrite (bind_Done _ _ _ _ _ (callback_step _ fn (with_native w s))).
        simpl. fold status. now rewrite Habort.
      * exists (Engine.ERROR_CALLBACK_ERROR X), g, seen. intros w.
        rewrite (bind_Done _ _ _ _ _ (callback_step _ fn (with_native w s))).
        simpl. fold status. now rewrite Habort, Herror.
      * exists code', g', seen'. intros w.
        rewrite (bind_Done _ _ _ _ _ (callback_step _ fn (with_native w s))).
        simpl. fold status. rewrite Habort, Herror. apply (Hrest w).
    + apply IH.
Qed.

(** [ScanMemory] on a live rule set: the call is logged, then the rules
    are run on the whole buffer. *)
Lemma ScanMemory_runs_scan (r : Rules) (b : byte) (buffer : list byte)
    (fn : Callback G) (s : St) (rs : list (Engine.crule X)) :
  Engine.rulesets X (native s) !! Rules_handle r = Some rs ->
  Rules_ScanMemory libyara r (b :: buffer) fn s =
  bind (Engine.scan X rs (b :: buffer) callback fn)
       (fun code => ret (ErrorModel code))
       (Engine.logged X
          (Engine.call_yr_rules_scan_mem (Rules_handle r) (b :: buffer)
             (Z.of_nat (length (b :: buffer))) 0 0) s).
Proof.
  intros Hlive.
  rewrite ScanMemory_nonempty. unfold bind at 1. cbn [yr_rules_scan_mem Engine.libyara].
  unfold Engine.yr_rules_scan_mem.
  cbn [Engine.logged native Engine.log Engine.rulesets].
  rewrite Hlive, Nat2Z.id, firstn_all. reflexivity.
Qed.

(** *** A handler that stops the scan *)

(** When the handler answers Abort or Fail to the first rule that is
    satisfied, the scan ends there, with that one invocation. *)
Lemma scan_stops_at_first (first : Engine.crule X)
    (rest : list (Engine.crule X)) (data : list byte) (fn : Callback G)
    (s : St) :
  Engine.satisfied X first.2 data = true ->
  let answer := fn (record_of (Engine.shown X first.2)) (closure s) in
  answer.1 = CALLBACK_ABORT \/ answer.1 = CALLBACK_ERROR ->
  Engine.scan X (first :: rest) data callback fn s =
  Done (if answer.1 =? CALLBACK_ABORT then ERROR_SUCCESS
        else Engine.ERROR_CALLBACK_ERROR X)
    {| native := native s; closure := answer.2;
       invoked := invoked s ++ [record_of (Engine.shown X first.2)] |}.
Proof.
  intros Hsat answer Hstop. simpl. rewrite Hsat.
  rewrite (bind_Done _ _ _ _ _ (callback_step _ fn s)). fold answer.
  destruct Hstop as [-> | ->]; reflexivity.
Qed.

(** C3. On a rule set of at least two rules that are all satisfied by a
    buffer with at least one byte, a handler that answers Abort to its
    first invocation is invoked that once, and [ScanMemory] returns nil. *)
Theorem Abort_short_circuits (r : Rules) (B : list byte) (fn : Callback G)
    (s : St) (first second : Engine.crule X) (rest : list (Engine.crule X)) :
  Engine.rulesets X (native s) !! Rules_handle r
  = Some (first :: second :: rest) ->
  Forall (fun cr => Engine.satisfied X cr.2 B = true)
         (first :: second :: rest) ->
  B <> [] ->
  (fn (record_of (Engine.shown X first.2)) (closure s)).1 = Abort ->
  exists s',
    Rules_ScanMemory libyara r B fn s = Done nil_error s' /\
    invoked s' = invoked s ++ [record_of (Engine.shown X first.2)].
Proof.
  intros Hlive Hall Hne Habort.
  destruct B as [| b buffer]; [contradiction |].
  apply Forall_cons in Hall as [Hsat _].
  rewrite (ScanMemory_runs_scan r b buffer fn s _ Hlive).
  eexists. split.
  - erewrite bind_Done.
    2:{ apply scan_stops_at_first; [exact Hsat |].
        left. exact Habort. }
    cbn [Engine.logged closure]. rewrite Habort. reflexivity.
  - reflexivity.
Qed.

(** C4. In the same setting, a handler that answers Fail to its first
    invocation is invoked that once, and [ScanMemory] returns an error
    that is not nil. *)
Theorem Fail_propagates (r : Rules) (B : list byte) (fn : Callback G)
    (s : St) (first second : Engine.crule X) (rest : list (Engine.crule X)) :
  Engine.rulesets X (native s) !! Rules_handle r
  = Some (first :: second :: rest) ->
  Forall (fun cr => Engine.satisfied X cr.2 B = true)
         (first :: second :: rest) ->
  B <> [] ->
  (fn (record_of (Engine.shown X first.2)) (closure s)).1 = Fail ->
  exists e s',
    Rules_ScanMemory libyara r B fn s = Done e s' /\
    e <> nil_error /\
    e = of_Error (Engine.ERROR_CALLBACK_ERROR X) /\
    invoked s' = invoked s ++ [record_of (Engine.shown X first.2)].
Proof.
  intros Hlive Hall Hne Hfail.
  destruct B as [| b buffer]; [contradiction |].
  apply Forall_cons in Hall as [Hsat _].
  rewrite (ScanMemory_runs_scan r b buffer fn s _ Hlive).
  exists (of_Error (Engine.ERROR_CALLBACK_ERROR X)). eexists.
  split.
  - erewrite bind_Done.
    2:{ apply scan_stops_at_first; [exact Hsat |].
        right. exact Hfail. }
    cbn [Engine.logged closure]. rewrite Hfail.
    change (Fail =? CALLBACK_ABORT) with false. cbn iota.
    unfold ret.
    now rewrite (ErrorModel_failure _ (Engine.callback_error_is_failure X)).
  - split; [discriminate | split; reflexivity].
Qed.


(** *** Saving and loading a rule set *)






(** *** Scanning a file *)

(** C8, as the code has it. [ScanFile] opens nothing itself: the path goes
    to the engine, and when the engine cannot open it, what comes back is
    the engine's status for that, as the numeric [Error] every other engine
    failure is reported with, the same for every such path; the handler has
    not been invoked, and the one call made is the scan. *)
Theorem ScanFile_unopened_path (r : Rules) (path : string) (fn : Callback G)
    (s : St) (rs : list (Engine.crule X)) :
  Engine.rulesets X (native s) !! Rules_handle r = Some rs ->
  Engine.files X (native s) !! CString path = None ->
  exists s',
    Rules_ScanFile libyara r path fn s =
    Done (of_Error (Engine.ERROR_COULD_NOT_OPEN_FILE X)) s' /\
    is_status_error (of_Error (Engine.ERROR_COULD_NOT_OPEN_FILE X)) /\
    invoked s' = invoked s /\
    closure s' = closure s /\
    Engine.calls X (native s') =
    Engine.calls X (native s) ++
    [Engine.call_yr_rules_scan_file (Rules_handle r) (CString path) 0 0].
Proof.
  intros Hlive Hfile. eexists. split.
  - unfold Rules_ScanFile, bind.
    cbn [yr_rules_scan_file Engine.libyara]. unfold Engine.yr_rules_scan_file.
    cbn [Engine.logged native Engine.log Engine.rulesets Engine.files].
    rewrite Hlive, Hfile.
    rewrite (proj2 (Z.eqb_neq _ _) (Engine.could_not_open_is_failure X)).
    reflexivity.
  - split; [now eexists | repeat split].
Qed.

(** *** Destroying *)

(** C9, as the code has it. [Destroy] hands the handle it holds to the
    engine each time it is called, and keeps no trace of it: the first
    [Destroy] of a live compiler or rule set releases it, and a second one
    passes the released handle on again, which the engine leaves
    undefined. *)
Theorem Destroy_forwards_handle (c : Compiler) (r : Rules) (s : St) :
  (forall session,
      Engine.compilers X (native s) !! Compiler_handle c = Some session ->
      exists s1,
        Compiler_Destroy libyara c s = Done tt s1 /\
        Engine.compilers X (native s1) !! Compiler_handle c = None /\
        Compiler_Destroy libyara c s1 = Undefined) /\
  (forall rs,
      Engine.rulesets X (native s) !! Rules_handle r = Some rs ->
      exists s1,
        Rules_Destroy libyara r s = Done tt s1 /\
        Engine.rulesets X (native s1) !! Rules_handle r = None /\
        Rules_Destroy libyara r s1 = Undefined).
Proof.
  split.
  - intros session Hlive. eexists. split; [| split].
    + unfold Compiler_Destroy, cgo.
      cbn [yr_compiler_destroy Engine.libyara].
      unfold Engine.yr_compiler_destroy. cbn [Engine.log Engine.compilers].
      rewrite Hlive. reflexivity.
    + cbn. apply lookup_delete_eq.
    + unfold Compiler_Destroy, cgo.
      cbn [yr_compiler_destroy Engine.libyara native].
      unfold Engine.yr_compiler_destroy.
      cbn [Engine.log Engine.compilers Engine.with_compilers].
      now rewrite lookup_delete_eq.
  - intros rs Hlive. eexists. split; [| split].
    + unfold Rules_Destroy, cgo.
      cbn [yr_rules_destroy Engine.libyara].
      unfold Engine.yr_rules_destroy. cbn [Engine.log Engine.rulesets].
      rewrite Hlive. reflexivity.
    + cbn. apply lookup_delete_eq.
    + unfold Rules_Destroy, cgo.
      cbn [yr_rules_destroy Engine.libyara native].
      unfold Engine.yr_rules_destroy.
      cbn [Engine.log Engine.rulesets Engine.with_rulesets].
      now rewrite lookup_delete_eq.
Qed.


End OnTheEngine.

(** ** Runs on the sample engine *)

(** The reference engine behaves as the spec's concrete scenario says: the
    handler is invoked once, with the identifier [test], on [xxabcxx], and
    not at all on [xyz]; both scans succeed. *)
Example concrete_scenario :
  (exists s',
      Sample.scenario "xxabcxx" Sample.compiling =
      Done (nil_error,
            [ {| Identifier := "test"; Tags := None; Metadata := Some ∅ |} ])
        s') /\
  (exists s', Sample.scenario "xyz" Sample.compiling = Done (nil_error, []) s').
Proof. split; eexists; vm_compute; reflexivity. Qed.

(** C1. [AddFile] does not merge under the namespace it is given: the
    namespace it hands to the engine is nil, whatever [ns] is.  Two files
    that declare a rule [R], added under the namespaces [a] and [b], meet
    in one namespace, so the second is refused as a compile failure and the
    session holds one rule; the same two texts added through [AddString],
    which passes [ns] on, give two rules, one per namespace. *)
Theorem AddFile_passes_no_namespace :
  (forall W G (C : C_package W G) fmt_q c ns ns' path s,
      Compiler_AddFile C fmt_q c ns path s
      = Compiler_AddFile C fmt_q c ns' path s) /\
  (exists s',
      Sample.two_files Sample.compiling =
      Done (nil_error, compile_failure_of_file Sample.fmt_q "b.yar") s' /\
      Sample.session_of Sample.compiler s' =
      Some [("default"%string,
             {| Sample.name := "R"; Sample.literal := Sample.bytes "abc" |})] /\
      Engine.calls Sample.engine (native s') =
      [Engine.call_yr_compiler_create;
       Engine.call_fopen "a.yar" "r";
       Engine.call_yr_compiler_add_file 1%N 2%N None "a.yar";
       Engine.call_fclose 2%N;
       Engine.call_fopen "b.yar" "r";
       Engine.call_yr_compiler_add_file 1%N 2%N None "b.yar";
       Engine.call_fclose 2%N]) /\
  (exists s',
      Sample.two_strings Sample.compiling = Done (nil_error, nil_error) s' /\
      Sample.session_of Sample.compiler s' =
      Some [("a"%string,
             {| Sample.name := "R"; Sample.literal := Sample.bytes "abc" |});
            ("b"%string,
             {| Sample.name := "R"; Sample.literal := Sample.bytes "xyz" |})]).
Proof.
  split; [reflexivity |].
  split; eexists; (split; [vm_compute; reflexivity |]);
    try split; vm_compute; reflexivity.
Qed.

(** C2 fails on the code: on an empty buffer [ScanMemory] panics, and so
    returns no error value. *)
Lemma ScanMemory_empty_buffer_returns_no_error :
  Rules_ScanMemory Sample.C Sample.rules [] (Sample.always Continue)
    Sample.scanning
  = Panicked index_out_of_range_0 Sample.scanning /\
  ~ (exists e s',
        Rules_ScanMemory Sample.C Sample.rules [] (Sample.always Continue)
          Sample.scanning
        = Done e s').
Proof.
  assert (E : Rules_ScanMemory Sample.C Sample.rules []
                (Sample.always Continue) Sample.scanning
              = Panicked index_out_of_range_0 Sample.scanning)
    by reflexivity.
  split; [exact E |].
  intros (e & s' & H). rewrite E in H. discriminate H.
Qed.

(** C8 fails on the code: for a path that cannot be opened [ScanFile]
    returns the engine's status as an [Error], the same value for another
    such path. *)
Lemma ScanFile_unopened_path_is_a_status_error :
  (exists s',
      Rules_ScanFile Sample.C Sample.rules "missing.bin"
        (Sample.always Continue) Sample.scanning
      = Done (of_Error 3) s') /\
  (exists s',
      Rules_ScanFile Sample.C Sample.rules "other.bin"
        (Sample.always Continue) Sample.scanning
      = Done (of_Error 3) s') /\
  is_status_error (of_Error 3).
Proof.
  split; [| split].
  - eexists. vm_compute. reflexivity.
  - eexists. vm_compute. reflexivity.
  - now exists 3.
Qed.

(** C9 fails on the code: a second [Destroy] is written as the first is,
    and it is undefined. *)
Lemma second_Destroy_is_undefined :
  Sample.destroy_twice Sample.compiling = Undefined /\
  Sample.destroy_rules_twice Sample.scanning = Undefined.
Proof. split; vm_compute; reflexivity. Qed.

(** ** The statements at concrete inputs *)

Lemma Abort_short_circuits_witness :
  exists s',
    Rules_ScanMemory Sample.C Sample.rules (Sample.bytes "xabcx")
      (Sample.always Abort) Sample.scanning
    = Done nil_error s' /\
    invoked s' =
    invoked Sample.scanning ++
    [record_of (Sample.shown
                  {| Sample.name := "first";
                     Sample.literal := Sample.bytes "abc" |})].
Proof.
  apply (Abort_short_circuits Sample.engine Sample.rules
           (Sample.bytes "xabcx") (Sample.always Abort) Sample.scanning
           ("a"%string,
            {| Sample.name := "first"; Sample.literal := Sample.bytes "abc" |})
           ("b"%string,
            {| Sample.name := "second"; Sample.literal := Sample.bytes "bc" |})
           []).
  - vm_compute. reflexivity.
  - repeat constructor.
  - discriminate.
  - reflexivity.
Defined.

Lemma Fail_propagates_witness :
  exists e s',
    Rules_ScanMemory Sample.C Sample.rules (Sample.bytes "xabcx")
      (Sample.always Fail) Sample.scanning
    = Done e s' /\
    e <> nil_error /\
    e = of_Error 28 /\
    invoked s' =
    invoked Sample.scanning ++
    [record_of (Sample.shown
                  {| Sample.name := "first";
                     Sample.literal := Sample.bytes "abc" |})].
Proof.
  apply (Fail_propagates Sample.engine Sample.rules
           (Sample.bytes "xabcx") (Sample.always Fail) Sample.scanning
           ("a"%string,
            {| Sample.name := "first"; Sample.literal := Sample.bytes "abc" |})
           ("b"%string,
            {| Sample.name := "second"; Sample.literal := Sample.bytes "bc" |})
           []).
  - vm_compute. reflexivity.
  - repeat constructor.
  - discriminate.
  - reflexivity.
Defined.


Lemma status_code_translation_witness :
  (exists s', Finalize Sample.C (Sample.boot ∅) = Done (ErrorModel 0) s') /\
  (exists s',
      LoadFromFile Sample.C "missing.bin" (Sample.boot ∅)
      = Done (if decide (3 = ERROR_SUCCESS)
              then Some {| Rules_handle := NULL |} else None,
              ErrorModel 3) s') /\
  ErrorModel 3 = of_Error 3.
Proof.
  split; [| split].
  - eexists.
    apply (proj1 (proj2 (proj2
             (status_code_translation Sample.C (Sample.boot ∅) _ 0)))).
    vm_compute. reflexivity.
  - eexists.
    apply (proj1 (proj2 (proj2 (proj2 (proj2 (proj2
             (status_code_translation Sample.C (Sample.boot ∅) _ 3))))))
             "missing.bin"%string NULL).
    vm_compute. reflexivity.
  - apply (proj1 (proj2
             (status_code_translation Sample.C (Sample.boot ∅) (Sample.boot ∅) 3))).
    discriminate.
Defined.

Lemma compile_failure_signal_witness :
  (exists e s',
      Compiler_AddString Sample.C Sample.compiler "ns" "nonsense"
        Sample.compiling = Done e s' /\
      (e = compile_failure_of_string <-> 0 < 1)) /\
  (exists e s',
      Compiler_AddFile Sample.C Sample.fmt_q Sample.compiler "ns" "a.yar"
        Sample.compiling = Done e s' /\
      (e = nil_error <-> 0 <= 0)) /\
  (exists s',
      Compiler_AddFile Sample.C Sample.fmt_q Sample.compiler "ns" "missing.yar"
        Sample.compiling = Done (open_failure Sample.fmt_q "missing.yar") s').
Proof.
  destruct (compile_failure_signal Sample.C Sample.fmt_q Sample.compiler "ns"
              Sample.compiling) as (Hstring & Hfile & Hopen & _).
  split; [| split].
  - destruct (Hstring "nonsense"%string 1
                (Sample.state_after
                   (Compiler_AddString Sample.C Sample.compiler "ns" "nonsense")
                   Sample.compiling))
      as (e & He & Hfail & _); [vm_compute; reflexivity |].
    exists e. eexists. split; [exact He | exact Hfail].
  - destruct (Hfile "a.yar"%string 2%N
                (Sample.state_after
                   (cgo (fopen Sample.C "a.yar" "r")) Sample.compiling)
                0
                (Sample.state_after
                   (cgo (fopen Sample.C "a.yar" "r") ;;;
                    cgo (yr_compiler_add_file Sample.C 1%N 2%N None "a.yar"))%go
                   Sample.compiling)
                0
                (Sample.state_after
                   (Compiler_AddFile Sample.C Sample.fmt_q Sample.compiler "ns"
                      "a.yar")
                   Sample.compiling))
      as (e & He & _ & Hnil);
      [vm_compute; reflexivity | discriminate | vm_compute; reflexivity
      | vm_compute; reflexivity |].
    exists e. eexists. split; [exact He | exact Hnil].
  - eexists. apply Hopen. vm_compute. reflexivity.
Defined.

Lemma ScanFile_unopened_path_witness :
  exists s',
    Rules_ScanFile Sample.C Sample.rules "missing.bin" (Sample.always Continue)
      Sample.scanning
    = Done (of_Error 3) s' /\
    is_status_error (of_Error 3) /\
    invoked s' = invoked Sample.scanning /\
    closure s' = closure Sample.scanning /\
    Engine.calls Sample.engine (native s') =
    Engine.calls Sample.engine (native Sample.scanning) ++
    [Engine.call_yr_rules_scan_file 2%N "missing.bin" 0 0].
Proof.
  apply (ScanFile_unopened_path Sample.engine Sample.rules "missing.bin"
           (Sample.always Continue) Sample.scanning
           [("a"%string,
             {| Sample.name := "first"; Sample.literal := Sample.bytes "abc" |});
            ("b"%string,
             {| Sample.name := "second"; Sample.literal := Sample.bytes "bc" |})]).
  - vm_compute. reflexivity.
  - vm_compute. reflexivity.
Defined.

Lemma Destroy_forwards_handle_witness :
  (exists s1,
      Compiler_Destroy Sample.C Sample.compiler Sample.scanning = Done tt s1 /\
      Engine.compilers Sample.engine (native s1) !! 1%N = None /\
      Compiler_Destroy Sample.C Sample.compiler s1 = Undefined) /\
  (exists s1,
      Rules_Destroy Sample.C Sample.rules Sample.scanning = Done tt s1 /\
      Engine.rulesets Sample.engine (native s1) !! 2%N = None /\
      Rules_Destroy Sample.C Sample.rules s1 = Undefined).
Proof.
  destruct (Destroy_forwards_handle Sample.engine Sample.compiler Sample.rules
              Sample.scanning) as [Hcompiler Hrules].
  split.
  - apply (Hcompiler
             [("a"%string,
               {| Sample.name := "first"; Sample.literal := Sample.bytes "abc" |});
              ("b"%string,
               {| Sample.name := "second"; Sample.literal := Sample.bytes "bc" |})]).
    vm_compute. reflexivity.
  - apply (Hrules
             [("a"%string,
               {| Sample.name := "first"; Sample.literal := Sample.bytes "abc" |});
              ("b"%string,
               {| Sample.name := "second"; Sample.literal := Sample.bytes "bc" |})]).
    vm_compute. reflexivity.
Defined.

(** * Further properties of the binding *)

(** ** The message of an [Error] *)

Lemma to_int_prints_back (z : Z) :
  NilZero.int_of_string (NilZero.string_of_int (Z.to_int z)) = Some (Z.to_int z).
Proof.
  apply NilZero.isi; destruct z as [| p | p]; try discriminate;
    cbn; intros H; injection H as H;
    exact (DecimalPos.Unsigned.to_uint_nonnil p H).
Qed.

Lemma append_same_head (p a b : string) : p +:+ a = p +:+ b -> a = b.
Proof.
  induction p as [| c p IH]; cbn; intros H; [exact H |].
  injection H as H. now apply IH.
Qed.

(** X1. [Error.Error()] is the text [libyara: ] followed by the code in
    decimal, and it identifies the code: two errors print the same message
    only when they carry the same code. *)
Theorem Error_message_identifies_code (e e' : Error) :
  Error_Error e = "libyara: " +:+ NilZero.string_of_int (Z.to_int e) /\
  (Error_Error e = Error_Error e' <-> e = e').
Proof.
  split; [reflexivity |]. split; [| now intros ->].
  unfold Error_Error. intros H. apply append_same_head in H.
  apply (f_equal NilZero.int_of_string) in H.
  rewrite !to_int_prints_back in H. injection H as H.
  now apply DecimalZ.to_int_inj.
Qed.

(** ** The errors a caller can get *)

Section Errors.

Context {W G : Type} (C : C_package W G) (fmt_q : string -> string).

Lemma status_return (code : Z) (s1 s' : state W G) (e : error) :
  (if negb (code =? ERROR_SUCCESS) then ret (of_Error code) else ret nil_error)
    s1 = Done e s' ->
  e = nil_error \/ failure e.
Proof.
  destruct (Z.eqb_spec code ERROR_SUCCESS) as [Heq | Hne]; cbn;
    intros H; injection H as <- <-.
  - now left.
  - right. now exists code.
Qed.

Lemma status_return_pointer {T} (code : Z) (v : T) (s1 s' : state W G)
    (p : option T) (e : error) :
  (if negb (code =? ERROR_SUCCESS) then ret (None, of_Error code)
   else ret (Some v, nil_error)) s1 = Done (p, e) s' ->
  (p <> None /\ e = nil_error) \/ (p = None /\ failure e).
Proof.
  destruct (Z.eqb_spec code ERROR_SUCCESS) as [Heq | Hne]; cbn;
    intros H; injection H as <- <- <-.
  - left. now split.
  - right. split; [reflexivity | now exists code].
Qed.

Ltac returned H out s1 :=
  unfold bind in H;
  match type of H with
  | context [match ?call with _ => _ end] =>
      destruct call as [out s1 | ? ? |]; try discriminate H
  end.

(** X2. The functions that report an engine status return nil or an
    [Error] with a code other than zero, never [Error(0)]; and those that
    return a pointer beside the error return exactly one of the two: a
    pointer with a nil error, or a nil pointer with such an [Error]. *)
Theorem status_results_are_exclusive (s : state W G) :
  (forall e s', Finalize C s = Done e s' -> e = nil_error \/ failure e) /\
  (forall r path e s',
      Rules_Save C r path s = Done e s' -> e = nil_error \/ failure e) /\
  (forall r buffer fn e s',
      Rules_ScanMemory C r buffer fn s = Done e s' ->
      e = nil_error \/ failure e) /\
  (forall r path fn e s',
      Rules_ScanFile C r path fn s = Done e s' ->
      e = nil_error \/ failure e) /\
  (forall c e s',
      NewCompiler C s = Done (c, e) s' ->
      (c <> None /\ e = nil_error) \/ (c = None /\ failure e)) /\
  (forall c r e s',
      Compiler_Rules C c s = Done (r, e) s' ->
      (r <> None /\ e = nil_error) \/ (r = None /\ failure e)) /\
  (forall path r e s',
      LoadFromFile C path s = Done (r, e) s' ->
      (r <> None /\ e = nil_error) \/ (r = None /\ failure e)).
Proof.
  split; [| split; [| split; [| split; [| split; [| split]]]]].
  - intros e s' H. unfold Finalize in H. returned H out s1.
    exact (status_return _ _ _ _ H).
  - intros r path e s' H. unfold Rules_Save in H. returned H out s1.
    exact (status_return _ _ _ _ H).
  - intros r buffer fn e s' H. unfold Rules_ScanMemory in H.
    returned H data s0. returned H out s1. exact (status_return _ _ _ _ H).
  - intros r path fn e s' H. unfold Rules_ScanFile in H. returned H out s1.
    exact (status_return _ _ _ _ H).
  - intros c e s' H. unfold NewCompiler in H. returned H out s1.
    destruct out as [code h]. exact (status_return_pointer _ _ _ _ _ _ H).
  - intros c r e s' H. unfold Compiler_Rules in H. returned H out s1.
    destruct out as [code h]. exact (status_return_pointer _ _ _ _ _ _ H).
  - intros path r e s' H. unfold LoadFromFile in H. returned H out s1.
    destruct out as [code h]. exact (status_return_pointer _ _ _ _ _ _ H).
Qed.

(** X3. A compilation fails with a message, never with an engine status:
    [AddString] returns nil or its one compile-failure error, [AddFile]
    returns nil, the open failure of the path or the compile failure of
    the path; none of these is an [Error] with a code. *)
Theorem compile_errors_are_messages (c : Compiler) (ns : string)
    (s : state W G) :
  (forall rule e s',
      Compiler_AddString C c ns rule s = Done e s' ->
      (e = nil_error \/ e = compile_failure_of_string) /\
      ~ is_status_error e) /\
  (forall path e s',
      Compiler_AddFile C fmt_q c ns path s = Done e s' ->
      (e = nil_error \/ e = open_failure fmt_q path \/
       e = compile_failure_of_file fmt_q path) /\
      ~ is_status_error e).
Proof.
  split.
  - intros rule e s' H. unfold Compiler_AddString in H. returned H out s1.
    destruct (out >? 0); cbn in H; injection H as <- <-;
      (split; [auto | intros [code Hcode]; discriminate Hcode]).
  - intros path e s' H. unfold Compiler_AddFile in H. returned H out s1.
    destruct (out =? NULL)%N.
    + cbn in H. injection H as <- <-.
      split; [auto | intros [code Hcode]; discriminate Hcode].
    + returned H n s2. destruct (n >? 0); returned H z s3; cbn in H;
        injection H as <- <-;
        (split; [auto | intros [code Hcode]; discriminate Hcode]).
Qed.

(** ** Strings handed to C *)

Lemma CString_idempotent (s : string) : CString (CString s) = CString s.
Proof.
  induction s as [| c rest IH]; [reflexivity |]. cbn.
  destruct (Ascii.eqb c zero) eqn:Hc; [reflexivity |]. cbn.
  now rewrite Hc, IH.
Qed.

(** X4. What follows the first NUL byte of a string never reaches the
    engine: saving, loading and scanning by path, and compiling a text
    under a namespace, do for a string what they do for its part before
    the first NUL. *)
Theorem strings_end_at_first_NUL (s : state W G) :
  (forall r path, Rules_Save C r path s = Rules_Save C r (CString path) s) /\
  (forall path, LoadFromFile C path s = LoadFromFile C (CString path) s) /\
  (forall r path fn,
      Rules_ScanFile C r path fn s = Rules_ScanFile C r (CString path) fn s) /\
  (forall c ns rule,
      Compiler_AddString C c ns rule s
      = Compiler_AddString C c (CString ns) (CString rule) s).
Proof.
  unfold Rules_Save, LoadFromFile, Rules_ScanFile, Compiler_AddString.
  repeat split; intros; now rewrite !CString_idempotent.
Qed.

End Errors.

(** ** What is opened and created is released *)

Section Release.

Context (X : Engine.external) {G : Type}.

Abbreviation libyara' := (Engine.libyara X (G := G)).

Lemma alloc_fresh (w : Engine.world X) :
  Engine.alloc X w <> NULL /\
  Engine.compilers X w !! Engine.alloc X w = None /\
  Engine.rulesets X w !! Engine.alloc X w = None /\
  Engine.streams X w !! Engine.alloc X w = None.
Proof.
  unfold Engine.alloc.
  match goal with |- fresh ?D <> _ /\ _ => pose proof (is_fresh D) as Hnew end.
  repeat split; try apply not_elem_of_dom; set_solver.
Qed.

(** X5. [AddFile] on a live compiler returns, and leaves no stream open:
    a path that cannot be opened costs the one [fopen]; a path that can is
    opened, compiled from and closed again, on the compile-failure path as
    on the other, so the open streams are those from before the call. *)
Theorem AddFile_closes_its_stream (fmt_q : string -> string) (c : Compiler)
    (ns path : string) (s : state (Engine.world X) G)
    (session : list (Engine.crule X)) :
  Engine.compilers X (native s) !! Compiler_handle c = Some session ->
  exists e s',
    Compiler_AddFile libyara' fmt_q c ns path s = Done e s' /\
    Engine.streams X (native s') = Engine.streams X (native s) /\
    match Engine.files X (native s) !! CString path with
    | None =>
        e = open_failure fmt_q path /\
        Engine.calls X (native s') =
        Engine.calls X (native s) ++ [Engine.call_fopen (CString path) "r"]
    | Some _ =>
        let fd :=
          Engine.alloc X
            (Engine.log X (Engine.call_fopen (CString path) "r") (native s)) in
        Engine.calls X (native s') =
        Engine.calls X (native s) ++
        [Engine.call_fopen (CString path) "r";
         Engine.call_yr_compiler_add_file (Compiler_handle c) fd None
           (CString path);
         Engine.call_fclose fd]
    end.
Proof.
  intros Hlive. unfold Compiler_AddFile.
  change (CString "r") with "r"%string.
  set (w0 := Engine.log X (Engine.call_fopen (CString path) "r") (native s)).
  destruct (Engine.files X (native s) !! CString path) as [f |] eqn:Hfile.
  - destruct (alloc_fresh w0) as (Hnull & _ & _ & Hstream).
    set (fd := Engine.alloc X w0) in *.
    assert (Hopen : cgo (fopen libyara' (CString path) "r") s =
                    Done fd
                      (with_native
                         (Engine.with_streams X
                            (<[fd := Engine.bytes_of X f]> (Engine.streams X w0))
                            w0) s)).
    { apply cgo_Done. cbn [fopen Engine.libyara]. unfold Engine.fopen.
      fold w0. cbn [Engine.files Engine.log] in *. unfold w0 at 1.
      cbn [Engine.files Engine.log]. now rewrite Hfile. }
    rewrite (bind_Done _ _ _ _ _ Hopen).
    destruct (N.eqb_spec fd NULL) as [Heq | _]; [contradiction |].
    unfold bind at 1, cgo at 1.
    cbn [yr_compiler_add_file Engine.libyara native with_native].
    unfold Engine.yr_compiler_add_file.
    cbn [Engine.log Engine.compilers Engine.streams Engine.with_streams].
    cbn [closure invoked with_native].
    change (Engine.compilers X w0 !! Compiler_handle c)
      with (Engine.compilers X (native s) !! Compiler_handle c).
    rewrite Hlive, lookup_insert_eq.
    destruct (Engine.add_source X None
                (string_of_list_byte (Engine.bytes_of X f)) session)
      as [n session'].
    assert (Hclose :
      forall e : error, exists s',
        bind (cgo (fclose libyara' fd)) (fun _ => ret e)
          {| native :=
               Engine.with_compilers X
                 (<[Compiler_handle c := session']> (Engine.compilers X w0))
                 (Engine.log X
                    (Engine.call_yr_compiler_add_file (Compiler_handle c) fd
                       None (CString path))
                    (Engine.with_streams X
                       (<[fd := Engine.bytes_of X f]> (Engine.streams X w0))
                       w0));
             closure := closure s; invoked := invoked s |}
        = Done e s' /\
        Engine.streams X (native s') = Engine.streams X (native s) /\
        Engine.calls X (native s') =
        Engine.calls X (native s) ++
        [Engine.call_fopen (CString path) "r";
         Engine.call_yr_compiler_add_file (Compiler_handle c) fd None
           (CString path);
         Engine.call_fclose fd]).
    { intros e. eexists. split; [| split].
      - unfold bind, cgo. cbn [fclose Engine.libyara native].
        unfold Engine.fclose.
        cbn [Engine.log Engine.streams Engine.with_compilers
               Engine.with_streams].
        rewrite lookup_insert_eq. reflexivity.
      - cbn. now apply delete_insert_id.
      - cbn. now rewrite <- !app_assoc. }
    destruct (n >? 0).
    + destruct (Hclose (compile_failure_of_file fmt_q path))
        as (s' & Hrun & Hstreams & Hcalls).
      exists (compile_failure_of_file fmt_q path), s'.
      split; [exact Hrun | split; [exact Hstreams | exact Hcalls]].
    + destruct (Hclose nil_error) as (s' & Hrun & Hstreams & Hcalls).
      exists nil_error, s'.
      split; [exact Hrun | split; [exact Hstreams | exact Hcalls]].
  - assert (Hopen : cgo (fopen libyara' (CString path) "r") s =
                    Done NULL (with_native w0 s)).
    { apply cgo_Done. cbn [fopen Engine.libyara]. unfold Engine.fopen.
      cbn [Engine.files Engine.log]. now rewrite Hfile. }
    rewrite (bind_Done _ _ _ _ _ Hopen). cbn.
    exists (open_failure fmt_q path). eexists.
    split; [reflexivity |]. cbn. repeat split.
Qed.

(** *** The steps of a session, on the tables of the engine *)

Lemma NewCompiler_step (s : state (Engine.world X) G) :
  exists h s1,
    NewCompiler libyara' s = Done (Some {| Compiler_handle := h |}, nil_error) s1 /\
    Engine.compilers X (native s) !! h = None /\
    Engine.compilers X (native s1) = <[h := []]> (Engine.compilers X (native s)) /\
    Engine.rulesets X (native s1) = Engine.rulesets X (native s) /\
    Engine.streams X (native s1) = Engine.streams X (native s) /\
    Engine.files X (native s1) = Engine.files X (native s).
Proof.
  destruct (alloc_fresh (Engine.log X Engine.call_yr_compiler_create (native s)))
    as (_ & Hnew & _).
  do 2 eexists. split; [reflexivity |]. cbn. now repeat split.
Qed.

Lemma AddString_step (c : Compiler) (ns rule : string)
    (s : state (Engine.world X) G) (session : list (Engine.crule X)) :
  Engine.compilers X (native s) !! Compiler_handle c = Some session ->
  exists e session' s1,
    Compiler_AddString libyara' c ns rule s = Done e s1 /\
    Engine.compilers X (native s1) =
    <[Compiler_handle c := session']> (Engine.compilers X (native s)) /\
    Engine.rulesets X (native s1) = Engine.rulesets X (native s) /\
    Engine.streams X (native s1) = Engine.streams X (native s) /\
    Engine.files X (native s1) = Engine.files X (native s).
Proof.
  intros Hlive. unfold Compiler_AddString, bind, cgo.
  cbn [yr_compiler_add_string Engine.libyara].
  unfold Engine.yr_compiler_add_string. cbn [Engine.log Engine.compilers].
  rewrite Hlive.
  destruct (Engine.add_source X (Some (CString ns)) (CString rule) session)
    as [n session'].
  destruct (n >? 0); do 3 eexists; (split; [reflexivity |]); cbn;
    now repeat split.
Qed.

Lemma Rules_step (c : Compiler) (s : state (Engine.world X) G)
    (session : list (Engine.crule X)) :
  Engine.compilers X (native s) !! Compiler_handle c = Some session ->
  exists r s1,
    Compiler_Rules libyara' c s = Done (Some {| Rules_handle := r |}, nil_error) s1 /\
    Engine.rulesets X (native s) !! r = None /\
    Engine.rulesets X (native s1) = <[r := session]> (Engine.rulesets X (native s)) /\
    Engine.compilers X (native s1) = Engine.compilers X (native s) /\
    Engine.streams X (native s1) = Engine.streams X (native s) /\
    Engine.files X (native s1) = Engine.files X (native s).
Proof.
  intros Hlive.
  destruct (alloc_fresh
              (Engine.log X (Engine.call_yr_compiler_get_rules (Compiler_handle c))
                 (native s))) as (_ & _ & Hnew & _).
  unfold Compiler_Rules, bind, cgo.
  cbn [yr_compiler_get_rules Engine.libyara].
  unfold Engine.yr_compiler_get_rules. cbn [Engine.log Engine.compilers].
  rewrite Hlive. do 2 eexists. split; [reflexivity |]. cbn. now repeat split.
Qed.

Lemma ScanMemory_step (r : Rules) (b : byte) (buffer : list byte)
    (fn : Callback G) (s : state (Engine.world X) G)
    (rs : list (Engine.crule X)) :
  Engine.rulesets X (native s) !! Rules_handle r = Some rs ->
  exists e s1,
    Rules_ScanMemory libyara' r (b :: buffer) fn s = Done e s1 /\
    Engine.compilers X (native s1) = Engine.compilers X (native s) /\
    Engine.rulesets X (native s1) = Engine.rulesets X (native s) /\
    Engine.streams X (native s1) = Engine.streams X (native s) /\
    Engine.files X (native s1) = Engine.files X (native s).
Proof.
  intros Hlive. rewrite (ScanMemory_runs_scan X r b buffer fn s _ Hlive).
  destruct (scan_frame X rs (b :: buffer) fn s) as (code & g & seen & Hscan).
  do 2 eexists. split.
  - erewrite bind_Done; [reflexivity |]. apply Hscan.
  - cbn. now repeat split.
Qed.

Lemma Rules_Destroy_step (r : Rules) (s : state (Engine.world X) G)
    (rs : list (Engine.crule X)) :
  Engine.rulesets X (native s) !! Rules_handle r = Some rs ->
  exists s1,
    Rules_Destroy libyara' r s = Done tt s1 /\
    Engine.rulesets X (native s1) = delete (Rules_handle r) (Engine.rulesets X (native s)) /\
    Engine.compilers X (native s1) = Engine.compilers X (native s) /\
    Engine.streams X (native s1) = Engine.streams X (native s) /\
    Engine.files X (native s1) = Engine.files X (native s).
Proof.
  intros Hlive. unfold Rules_Destroy, cgo.
  cbn [yr_rules_destroy Engine.libyara]. unfold Engine.yr_rules_destroy.
  cbn [Engine.log Engine.rulesets]. rewrite Hlive.
  eexists. split; [reflexivity |]. cbn. now repeat split.
Qed.

Lemma Compiler_Destroy_step (c : Compiler) (s : state (Engine.world X) G)
    (session : list (Engine.crule X)) :
  Engine.compilers X (native s) !! Compiler_handle c = Some session ->
  exists s1,
    Compiler_Destroy libyara' c s = Done tt s1 /\
    Engine.compilers X (native s1) = delete (Compiler_handle c) (Engine.compilers X (native s)) /\
    Engine.rulesets X (native s1) = Engine.rulesets X (native s) /\
    Engine.streams X (native s1) = Engine.streams X (native s) /\
    Engine.files X (native s1) = Engine.files X (native s).
Proof.
  intros Hlive. unfold Compiler_Destroy, cgo.
  cbn [yr_compiler_destroy Engine.libyara]. unfold Engine.yr_compiler_destroy.
  cbn [Engine.log Engine.compilers]. rewrite Hlive.
  eexists. split; [reflexivity |]. cbn. now repeat split.
Qed.


(** X6. Used in order (a compiler created, a text added, the rules taken,
    a buffer with at least one byte scanned, the rule set and then the
    compiler destroyed), the binding never hands the engine a handle that
    is not live: the session returns, whatever the text and the handler,
    and the engine holds the compilers, rule sets, streams and files it
    held before. *)
Theorem session_releases_what_it_creates (ns rule : string) (b : byte)
    (buffer : list byte) (fn : Callback G) (s : state (Engine.world X) G) :
  exists e s',
    compile_and_scan libyara' ns rule (b :: buffer) fn s = Done e s' /\
    Engine.compilers X (native s') = Engine.compilers X (native s) /\
    Engine.rulesets X (native s') = Engine.rulesets X (native s) /\
    Engine.streams X (native s') = Engine.streams X (native s) /\
    Engine.files X (native s') = Engine.files X (native s).
Proof.
  destruct (NewCompiler_step s) as (h & s1 & Hnew & Hfresh & Hc1 & Hr1 & Hs1 & Hf1).
  unfold compile_and_scan. rewrite (bind_Done _ _ _ _ _ Hnew). cbn [fst snd].
  set (c := {| Compiler_handle := h |}).
  assert (Hlive1 : Engine.compilers X (native s1) !! Compiler_handle c = Some [])
    by (rewrite Hc1; apply lookup_insert_eq).
  destruct (AddString_step c ns rule s1 [] Hlive1)
    as (e & session & s2 & Hadd & Hc2 & Hr2 & Hs2 & Hf2).
  rewrite (bind_Done _ _ _ _ _ Hadd).
  assert (Hlive2 : Engine.compilers X (native s2) !! Compiler_handle c
                   = Some session)
    by (rewrite Hc2; apply lookup_insert_eq).
  assert (Hgone : delete (Compiler_handle c) (Engine.compilers X (native s2))
                  = Engine.compilers X (native s)).
  { rewrite Hc2, Hc1, insert_insert_eq. now apply delete_insert_id. }
  assert (Hstop : forall e0 : error, exists s',
             bind (Compiler_Destroy libyara' c) (fun _ => ret e0) s2 = Done e0 s' /\
             Engine.compilers X (native s') = Engine.compilers X (native s) /\
             Engine.rulesets X (native s') = Engine.rulesets X (native s) /\
             Engine.streams X (native s') = Engine.streams X (native s) /\
             Engine.files X (native s') = Engine.files X (native s)).
  { intros e0.
    destruct (Compiler_Destroy_step c s2 session Hlive2)
      as (s3 & Hdestroy & Hc3 & Hr3 & Hs3 & Hf3).
    exists s3. rewrite (bind_Done _ _ _ _ _ Hdestroy).
    split; [reflexivity |]. repeat split; congruence. }
  destruct e as [| code | msg].
  - destruct (Rules_step c s2 session Hlive2)
      as (rh & s3 & Hrules & Hrfresh & Hr3 & Hc3 & Hs3 & Hf3).
    rewrite (bind_Done _ _ _ _ _ Hrules). cbn [fst snd].
    set (r := {| Rules_handle := rh |}).
    assert (Hlive3 : Engine.rulesets X (native s3) !! Rules_handle r
                     = Some session)
      by (rewrite Hr3; apply lookup_insert_eq).
    destruct (ScanMemory_step r b buffer fn s3 session Hlive3)
      as (e' & s4 & Hscan & Hc4 & Hr4 & Hs4 & Hf4).
    rewrite (bind_Done _ _ _ _ _ Hscan).
    assert (Hlive4 : Engine.rulesets X (native s4) !! Rules_handle r
                     = Some session) by (now rewrite Hr4).
    destruct (Rules_Destroy_step r s4 session Hlive4)
      as (s5 & Hrd & Hr5 & Hc5 & Hs5 & Hf5).
    rewrite (bind_Done _ _ _ _ _ Hrd).
    assert (Hlive5 : Engine.compilers X (native s5) !! Compiler_handle c
                     = Some session) by (now rewrite Hc5, Hc4, Hc3).
    destruct (Compiler_Destroy_step c s5 session Hlive5)
      as (s6 & Hcd & Hc6 & Hr6 & Hs6 & Hf6).
    rewrite (bind_Done _ _ _ _ _ Hcd).
    exists e', s6. split; [reflexivity |]. repeat split.
    + now rewrite Hc6, Hc5, Hc4, Hc3.
    + rewrite Hr6, Hr5, Hr4, Hr3, Hr2, Hr1.
      apply delete_insert_id. now rewrite <- Hr1, <- Hr2.
    + congruence.
    + congruence.
  - destruct (Hstop (of_Error code)) as (s' & Hrun & Hrest).
    now exists (of_Error code), s'.
  - destruct (Hstop (fmt_Errorf msg)) as (s' & Hrun & Hrest).
    now exists (fmt_Errorf msg), s'.
Qed.


End Release.

(** ** The further statements at concrete inputs *)

Lemma status_results_are_exclusive_witness :
  (@None Rules <> None /\ of_Error 3 = nil_error) \/
  (@None Rules = None /\ failure (of_Error 3)).
Proof.
  eapply (proj2 (proj2 (proj2 (proj2 (proj2 (proj2
            (status_results_are_exclusive Sample.C (Sample.boot ∅))))))))
    with (path := "missing.bin"%string).
  vm_compute. reflexivity.
Defined.

Lemma compile_errors_are_messages_witness :
  (compile_failure_of_string = nil_error \/
   compile_failure_of_string = compile_failure_of_string) /\
  ~ is_status_error compile_failure_of_string.
Proof.
  eapply (proj1 (compile_errors_are_messages Sample.C Sample.fmt_q
                   Sample.compiler "ns" Sample.compiling))
    with (rule := "nonsense"%string).
  vm_compute. reflexivity.
Defined.

Lemma AddFile_closes_its_stream_witness :
  exists e s',
    Compiler_AddFile Sample.C Sample.fmt_q Sample.compiler "ns" "a.yar"
      Sample.compiling = Done e s' /\
    Engine.streams Sample.engine (native s')
    = Engine.streams Sample.engine (native Sample.compiling).
Proof.
  destruct (AddFile_closes_its_stream Sample.engine Sample.fmt_q
              Sample.compiler "ns" "a.yar" Sample.compiling [])
    as (e & s' & Hrun & Hstreams & _).
  - vm_compute. reflexivity.
  - exists e, s'. split; [exact Hrun | exact Hstreams].
Defined.

(** ** Handles that are not live *)

Section DeadHandles.

Context (X : Engine.external) {G : Type}.

Abbreviation libyara'' := (Engine.libyara X (G := G)).

(** X7. No function of the binding looks at the handle it holds before it
    passes it on.  With a compiler whose handle is not live (destroyed, or
    never created) [AddString], [Rules] and [Destroy] reach the engine with
    it, which is undefined, and [AddFile] does so as soon as the path can
    be opened, while a path that cannot be opened still gives the open
    failure; with such a rule set [Save], [ScanFile], [Destroy] and
    [ScanMemory] on a buffer with a first byte are undefined, while
    [ScanMemory] on the empty buffer panics before the engine is reached. *)
Theorem dead_handle_is_passed_on (fmt_q : string -> string) (c : Compiler)
    (r : Rules) (s : state (Engine.world X) G) :
  Engine.compilers X (native s) !! Compiler_handle c = None ->
  Engine.rulesets X (native s) !! Rules_handle r = None ->
  (forall ns rule, Compiler_AddString libyara'' c ns rule s = Undefined) /\
  Compiler_Rules libyara'' c s = Undefined /\
  Compiler_Destroy libyara'' c s = Undefined /\
  (forall ns path f,
      Engine.files X (native s) !! CString path = Some f ->
      Compiler_AddFile libyara'' fmt_q c ns path s = Undefined) /\
  (forall ns path,
      Engine.files X (native s) !! CString path = None ->
      exists s',
        Compiler_AddFile libyara'' fmt_q c ns path s
        = Done (open_failure fmt_q path) s') /\
  (forall path, Rules_Save libyara'' r path s = Undefined) /\
  (forall path fn, Rules_ScanFile libyara'' r path fn s = Undefined) /\
  Rules_Destroy libyara'' r s = Undefined /\
  (forall b buffer fn,
      Rules_ScanMemory libyara'' r (b :: buffer) fn s = Undefined) /\
  (forall fn,
      Rules_ScanMemory libyara'' r [] fn s = Panicked index_out_of_range_0 s).
Proof.
  intros Hc Hr.
  split; [| split; [| split; [| split; [| split; [| split; [| split;
    [| split; [| split]]]]]]]].
  - intros ns rule. unfold Compiler_AddString. apply bind_Undefined.
    apply cgo_Undefined. cbn [yr_compiler_add_string Engine.libyara].
    unfold Engine.yr_compiler_add_string. cbn [Engine.log Engine.compilers].
    now rewrite Hc.
  - unfold Compiler_Rules. apply bind_Undefined. apply cgo_Undefined.
    cbn [yr_compiler_get_rules Engine.libyara].
    unfold Engine.yr_compiler_get_rules. cbn [Engine.log Engine.compilers].
    now rewrite Hc.
  - unfold Compiler_Destroy. apply cgo_Undefined.
    cbn [yr_compiler_destroy Engine.libyara].
    unfold Engine.yr_compiler_destroy. cbn [Engine.log Engine.compilers].
    now rewrite Hc.
  - intros ns path f Hfile. unfold Compiler_AddFile.
    change (CString "r") with "r"%string.
    set (w0 := Engine.log X (Engine.call_fopen (CString path) "r") (native s)).
    assert (Hnull : Engine.alloc X w0 <> NULL).
    { unfold Engine.alloc.
      match goal with |- fresh ?D <> _ => pose proof (is_fresh D) end.
      set_solver. }
    assert (Hopen : cgo (fopen libyara'' (CString path) "r") s =
                    Done (Engine.alloc X w0)
                      (with_native
                         (Engine.with_streams X
                            (<[Engine.alloc X w0 := Engine.bytes_of X f]>
                               (Engine.streams X w0)) w0) s)).
    { apply cgo_Done. cbn [fopen Engine.libyara]. unfold Engine.fopen.
      cbn [Engine.files Engine.log]. now rewrite Hfile. }
    rewrite (bind_Done _ _ _ _ _ Hopen).
    destruct (N.eqb_spec (Engine.alloc X w0) NULL) as [Heq | _];
      [contradiction |].
    apply bind_Undefined. apply cgo_Undefined.
    cbn [yr_compiler_add_file Engine.libyara native with_native].
    unfold Engine.yr_compiler_add_file.
    cbn [Engine.log Engine.compilers Engine.with_streams].
    change (Engine.compilers X w0 !! Compiler_handle c)
      with (Engine.compilers X (native s) !! Compiler_handle c).
    now rewrite Hc.
  - intros ns path Hfile. unfold Compiler_AddFile.
    change (CString "r") with "r"%string. eexists.
    erewrite bind_Done.
    2:{ apply cgo_Done. cbn [fopen Engine.libyara]. unfold Engine.fopen.
        cbn [Engine.files Engine.log]. rewrite Hfile. reflexivity. }
    reflexivity.
  - intros path. unfold Rules_Save. apply bind_Undefined. apply cgo_Undefined.
    cbn [yr_rules_save Engine.libyara]. unfold Engine.yr_rules_save.
    cbn [Engine.log Engine.rulesets]. now rewrite Hr.
  - intros path fn. unfold Rules_ScanFile. apply bind_Undefined.
    cbn [yr_rules_scan_file Engine.libyara]. unfold Engine.yr_rules_scan_file.
    cbn [Engine.logged native Engine.log Engine.rulesets]. now rewrite Hr.
  - unfold Rules_Destroy. apply cgo_Undefined.
    cbn [yr_rules_destroy Engine.libyara]. unfold Engine.yr_rules_destroy.
    cbn [Engine.log Engine.rulesets]. now rewrite Hr.
  - intros b buffer fn. rewrite ScanMemory_nonempty. apply bind_Undefined.
    cbn [yr_rules_scan_mem Engine.libyara]. unfold Engine.yr_rules_scan_mem.
    cbn [Engine.logged native Engine.log Engine.rulesets]. now rewrite Hr.
  - reflexivity.
Qed.

End DeadHandles.

Lemma dead_handle_is_passed_on_witness :
  Compiler_Rules Sample.C Sample.compiler (Sample.boot Sample.sources)
  = Undefined /\
  Rules_ScanMemory Sample.C Sample.rules [] (Sample.always Continue)
    (Sample.boot Sample.sources)
  = Panicked index_out_of_range_0 (Sample.boot Sample.sources).
Proof.
  destruct (dead_handle_is_passed_on Sample.engine Sample.fmt_q Sample.compiler
              Sample.rules (Sample.boot Sample.sources))
    as (_ & Hrules & _ & _ & _ & _ & _ & _ & _ & Hpanic).
  - vm_compute. reflexivity.
  - vm_compute. reflexivity.
  - split; [exact Hrules | exact (Hpanic (Sample.always Continue))].
Defined.
